(** * The turn-processing pipeline of the voice chatbot

    A shallow embedding of [src/command_handler.py], [src/translation.py]
    and [Chatbot.process_input] of [src/chatbot.py].

    - Python [str] values are modelled as [string], their UTF-8 bytes;
      [str.lower] is the ASCII lowering ([A]..[Z] to [a]..[z], every other
      byte kept), which is what [str.lower] does to ASCII text
      ([PyAscii.is_ascii]).
    - The services the code calls (language detection, the translation
      client, the tokenizer, the language model, the clock) are the fields of
      the class [Services].  The calls that reach outside the process take
      the state of the outside [World] and return the next one, so that
      sampling, the network and the clock may answer differently each time;
      a call that raises returns [Raised].
    - The mutable attributes of the [Chatbot] object and of the
      [CommandHandler] it owns are the fields of the record [Chatbot], which
      every method threads through the monad [M].  The field [trace] is not
      in the source: it is a ghost log of the calls made to the external
      services, used to state that a call did not happen.
    - Logging is not modelled.

    The rest of the repository follows the same conventions, each part with
    its own outside world: the table of languages of [translation.py],
    [utils.py], the microphone side of [speech_to_text.py], the engines of
    [text_to_speech.py], [Chatbot.start] at the keyboard and the language
    prompt of [examples/example_usage.py]. *)

From Stdlib Require Import ZArith Ascii String List Lia.
From stdpp Require Import base option list gmap strings.

Open Scope string_scope.

(** ** Strings as Python uses them *)

Module PyStr.

Definition is_upper (c : ascii) : bool :=
  let n := nat_of_ascii c in Nat.leb 65 n && Nat.leb n 90.

Definition lower_ascii (c : ascii) : ascii :=
  if is_upper c then ascii_of_nat (nat_of_ascii c + 32) else c.

(** [s.lower()] *)
Fixpoint lower (s : string) : string :=
  match s with
  | EmptyString => EmptyString
  | String c s' => String (lower_ascii c) (lower s')
  end.

(** some character of [s] is one of the letters [A] to [Z] *)
Fixpoint has_upper (s : string) : bool :=
  match s with
  | EmptyString => false
  | String c s' => is_upper c || has_upper s'
  end.

(** [needle in hay] on two strings: [needle] occurs in [hay] *)
Fixpoint contains (needle hay : string) : bool :=
  String.prefix needle hay ||
  match hay with
  | EmptyString => false
  | String _ hay' => contains needle hay'
  end.

(** truth value of a string: [bool(s)] *)
Definition truthy (s : string) : bool :=
  match s with EmptyString => false | String _ _ => true end.

(** [sep.join(l)] *)
Definition join (sep : string) (l : list string) : string := String.concat sep l.

End PyStr.

(** ** Python lists: the slice [l[start:]] and membership *)

Module PyList.

(** [l[start:]]: a negative [start] counts from the end and is clamped at
    the front of the list. *)
Definition slice_from {A : Type} (start : Z) (l : list A) : list A :=
  if (start <? 0)%Z
  then drop (Z.to_nat (Z.max 0 (Z.of_nat (length l) + start))) l
  else drop (Z.to_nat start) l.

(** [x in l] on a list of strings *)
Definition mem (x : string) (l : list string) : bool := existsb (String.eqb x) l.

End PyList.

(** ** Results of calls that may raise *)

Definition exn : Type := string.

Inductive outcome (A : Type) : Type :=
| Returned (a : A)
| Raised (e : exn).
Arguments Returned {A} a.
Arguments Raised {A} e.

(** ** The configuration file, as the code reads it *)

Record Config : Type := {
  language_default : string;         (* config["language"]["default"] *)
  translation_enabled : bool;        (* config["language"]["translation_enabled"] *)
  max_history : Z;                   (* config["model"]["max_history"] *)
  exit_commands : list string;       (* config["commands"]["exit_commands"] *)
  custom_commands : list (string * list string)
                                     (* config["commands"]["custom_commands"], in declaration order *)
}.

(** [key in d] and [d[key]] for the ordered table of command types *)
Fixpoint table_get (key : string) (d : list (string * list string)) : option (list string) :=
  match d with
  | [] => None
  | (k, v) :: d' => if String.eqb key k then Some v else table_get key d'
  end.

Definition table_has (key : string) (d : list (string * list string)) : bool :=
  match table_get key d with Some _ => true | None => false end.

(** ** The external services *)

Class Services : Type := {
  World : Type;
  Tensor : Type;
  (* langdetect.detect(text) *)
  langdetect_detect : string → World → outcome string * World;
  (* GoogleTranslator().translate(text, src=, dest=).text *)
  googletrans_translate : string → string → string → World → outcome string * World;
  (* tokenizer.eos_token, tokenizer.encode(text, return_tensors='pt') *)
  eos_token : string;
  tokenizer_encode : string → outcome Tensor;
  (* torch.cat([a, b], dim=-1) *)
  torch_cat : Tensor → Tensor → Tensor;
  (* model.generate(bot_input_ids, ..., do_sample=True, ...) *)
  model_generate : Tensor → World → outcome Tensor * World;
  (* tokenizer.decode(chat_history_ids[:, bot_input_ids.shape[-1]:][0], ...) *)
  tokenizer_decode : Tensor → Tensor → outcome string;
  (* datetime.datetime.now().strftime(format) *)
  now_strftime : string → World → string * World;
  (* the placeholder weather reply: a regular-expression search for the
     location and two draws of random.choice *)
  weather_reply : string → World → string * World
}.

Section Pipeline.

Context `{Sv : Services}.

(** A command handler: called with the utterance, it answers with a string
    or raises; it may look at the clock or draw random numbers. *)
Definition handler : Type := string → World → outcome string * World.

(** Calls to the external services, for the ghost log. *)
Inductive Call : Type :=
| CallDetect (text : string)
| CallTranslate (text src dest : string)
| CallGenerate (bot_input_ids : Tensor).

Record Chatbot : Type := {
  builtin_handlers : gmap string handler;   (* self.command_handler.builtin_handlers *)
  conversation_history : list string;       (* self.conversation_history *)
  chat_history_ids : option Tensor;         (* self.chat_history_ids, None at first *)
  world : World;
  trace : list Call                         (* ghost: the external calls so far, oldest first *)
}.

Definition set_handlers (h : gmap string handler) (s : Chatbot) : Chatbot :=
  {| builtin_handlers := h; conversation_history := conversation_history s;
     chat_history_ids := chat_history_ids s; world := world s; trace := trace s |}.

Definition set_history (h : list string) (s : Chatbot) : Chatbot :=
  {| builtin_handlers := builtin_handlers s; conversation_history := h;
     chat_history_ids := chat_history_ids s; world := world s; trace := trace s |}.

Definition set_ids (t : option Tensor) (s : Chatbot) : Chatbot :=
  {| builtin_handlers := builtin_handlers s; conversation_history := conversation_history s;
     chat_history_ids := t; world := world s; trace := trace s |}.

Definition set_world (w : World) (s : Chatbot) : Chatbot :=
  {| builtin_handlers := builtin_handlers s; conversation_history := conversation_history s;
     chat_history_ids := chat_history_ids s; world := w; trace := trace s |}.

Definition log_call (c : Call) (s : Chatbot) : Chatbot :=
  {| builtin_handlers := builtin_handlers s; conversation_history := conversation_history s;
     chat_history_ids := chat_history_ids s; world := world s; trace := trace s ++ [c] |}.

(** ** The monad of methods: state, and exceptions that keep the state *)

Definition M (A : Type) : Type := Chatbot → outcome A * Chatbot.

Definition ret {A} (a : A) : M A := fun s => (Returned a, s).

Definition raise {A} (e : exn) : M A := fun s => (Raised e, s).

Definition bind {A B} (m : M A) (k : A → M B) : M B :=
  fun s => match m s with
           | (Returned a, s') => k a s'
           | (Raised e, s') => (Raised e, s')
           end.

(** [try: m  except Exception: h] *)
Definition try_except {A} (m : M A) (h : exn → M A) : M A :=
  fun s => match m s with
           | (Returned a, s') => (Returned a, s')
           | (Raised e, s') => h e s'
           end.

Definition gets {A} (f : Chatbot → A) : M A := fun s => (Returned (f s), s).

Definition modify (f : Chatbot → Chatbot) : M unit := fun s => (Returned tt, f s).

(** a pure library call that may raise *)
Definition lift_outcome {A} (o : outcome A) : M A := fun s => (o, s).

(** a call that reaches outside: logged, and run on the world *)
Definition external {A} (c : option Call) (f : World → outcome A * World) : M A :=
  fun s =>
    let s1 := match c with Some c => log_call c s | None => s end in
    let '(r, w) := f (world s1) in (r, set_world w s1).

End Pipeline.

Declare Scope py_scope.
Delimit Scope py_scope with py.
Notation "x <~ m ;; k" := (bind m (fun x => k))
  (at level 100, m at next level, right associativity) : py_scope.
Notation "m ;;; k" := (bind m (fun _ => k))
  (at level 100, right associativity) : py_scope.
Open Scope py_scope.

(** ** [command_handler.py]: class CommandHandler *)

Section CommandHandler.

Context `{Sv : Services}.
Variable cfg : Config.

Definition _handle_time_command : handler :=
  fun _command w =>
    let '(current_time, w') := now_strftime "%I:%M %p" w in
    (Returned ("The current time is " ++ current_time ++ "."), w').

Definition _handle_date_command : handler :=
  fun _command w =>
    let '(current_date, w') := now_strftime "%A, %B %d, %Y" w in
    (Returned ("Today is " ++ current_date ++ "."), w').

Definition _handle_weather_command : handler :=
  fun command w => let '(r, w') := weather_reply command w in (Returned r, w').

Definition newline : string := String (ascii_of_nat 10) EmptyString.

Definition help_line (label key : string) (help_text : string) : string :=
  match table_get key (custom_commands cfg) with
  | Some phrases => help_text ++ label ++ PyStr.join ", " phrases ++ newline
  | None => help_text
  end.

Definition _handle_help_command : handler :=
  fun _command w =>
    let help_text := "Here are the commands I understand:" ++ newline in
    let help_text := help_line "- Ask for the time: " "time" help_text in
    let help_text := help_line "- Ask for the date: " "date" help_text in
    let help_text := help_line "- Ask for weather: " "weather" help_text in
    let help_text :=
      help_text ++ "- Exit commands: " ++ PyStr.join ", " (exit_commands cfg) ++ newline in
    (Returned help_text, w).

(** [self.builtin_handlers] as [__init__] leaves it *)
Definition init_builtin_handlers : gmap string handler :=
  <["time" := _handle_time_command]>
    (<["date" := _handle_date_command]>
       (<["weather" := _handle_weather_command]>
          (<["help" := _handle_help_command]> ∅))).

(** [pattern.lower() in lowercase_input] *)
Definition pattern_matches (pattern lowercase_input : string) : bool :=
  PyStr.contains (PyStr.lower pattern) lowercase_input.

(** The inner loop of [handle_command], [for pattern in patterns]: the
    handler the loop returns through, if it returns.  A pattern that
    matches while [command_type] has no handler lets the loop go on. *)
Fixpoint scan_patterns (handlers : gmap string handler) (lowercase_input command_type : string)
    (patterns : list string) : option handler :=
  match patterns with
  | [] => None
  | pattern :: patterns' =>
      if pattern_matches pattern lowercase_input then
        match handlers !! command_type with
        | Some h => Some h
        | None => scan_patterns handlers lowercase_input command_type patterns'
        end
      else scan_patterns handlers lowercase_input command_type patterns'
  end.

(** The outer loop, [for command_type, patterns in self.custom_commands.items()]:
    the command type and handler of the first [return] reached. *)
Fixpoint scan_commands (handlers : gmap string handler) (lowercase_input : string)
    (commands : list (string * list string)) : option (string * handler) :=
  match commands with
  | [] => None
  | (command_type, patterns) :: commands' =>
      match scan_patterns handlers lowercase_input command_type patterns with
      | Some h => Some (command_type, h)
      | None => scan_commands handlers lowercase_input commands'
      end
  end.

(** [return self.builtin_handlers[command_type](user_input)] *)
Definition invoke (h : handler) (user_input : string) : M (option string) :=
  r <~ external None (h user_input) ;; ret (Some r).

(** [handle_command(user_input)]: [None] is Python's [None]. *)
Definition handle_command (user_input : string) : M (option string) :=
  if negb (PyStr.truthy user_input) then ret None
  else if PyList.mem (PyStr.lower user_input) (exit_commands cfg) then ret (Some "Goodbye!")
  else
    let lowercase_input := PyStr.lower user_input in
    handlers <~ gets builtin_handlers ;;
    match scan_commands handlers lowercase_input (custom_commands cfg) with
    | Some (_, h) => invoke h user_input
    | None => ret None
    end.

(** [add_custom_command_handler(command_type, handler_function)] *)
Definition add_custom_command_handler (command_type : string) (handler_function : handler)
    : M bool :=
  if negb (table_has command_type (custom_commands cfg)) then ret false
  else
    modify (fun s => set_handlers (<[command_type := handler_function]> (builtin_handlers s)) s) ;;;
    ret true.

End CommandHandler.

(** ** [translation.py]: class Translator *)

Section Translator.

Context `{Sv : Services}.
Variable default_language : string.   (* self.default_language *)

(** [detect_language(text)] *)
Definition detect_language (text : string) : M string :=
  try_except
    (external (Some (CallDetect text)) (langdetect_detect text))
    (fun _ => ret default_language).

(** [translate(text, source_lang, target_lang)] *)
Definition translate (text : string) (source_lang : option string) (target_lang : string)
    : M string :=
  if negb (PyStr.truthy text) then ret ""
  else
    try_except
      (source_lang <~ match source_lang with
                      | None => detect_language text
                      | Some l => ret l
                      end ;;
       if String.eqb source_lang target_lang then ret text
       else
         external (Some (CallTranslate text source_lang target_lang))
                  (googletrans_translate text source_lang target_lang))
      (fun _ => ret text).

(** [translate_to_english(text)] *)
Definition translate_to_english (text : string) : M (string * string) :=
  detected_lang <~ detect_language text ;;
  if String.eqb detected_lang "en" then ret (detected_lang, text)
  else
    translated <~ translate text (Some detected_lang) "en" ;;
    ret (detected_lang, translated).

(** [translate_from_english(text, target_lang)] *)
Definition translate_from_english (text target_lang : string) : M string :=
  if String.eqb target_lang "en" then ret text
  else translate text (Some "en") target_lang.

End Translator.

(** ** [chatbot.py]: Chatbot.process_input *)

Section Chatbot.

Context `{Sv : Services}.
Variable cfg : Config.

(** truth value of [input_language], a string or [None] *)
Definition lang_truthy (l : option string) : bool :=
  match l with Some l => PyStr.truthy l | None => false end.

(** [detected_language != "en"], where [detected_language] may be [None] *)
Definition lang_is_not_en (l : option string) : bool :=
  match l with Some l => negb (String.eqb l "en") | None => true end.

(** Lines 84-88: the language of the turn and the text in the pivot language. *)
Definition to_pivot (user_input : string) (input_language : option string)
    : M (option string * string) :=
  if translation_enabled cfg && negb (lang_truthy input_language) then
    r <~ translate_to_english (language_default cfg) user_input ;;
    ret (Some (fst r), snd r)
  else ret (input_language, user_input).

(** Lines 92-93: the window kept after an append. *)
Definition trim_history (h : list string) : list string :=
  if (max_history cfg <? Z.of_nat (length h))%Z
  then PyList.slice_from (- max_history cfg) h
  else h.

(** Lines 91-93. *)
Definition remember (translated_input : string) : M unit :=
  modify (fun s => set_history (trim_history (conversation_history s ++ [translated_input])) s).

(** The state lines 91-93 leave: the pivot text appended, the window trimmed. *)
Definition remembered (translated_input : string) (s : Chatbot) : Chatbot :=
  set_history (trim_history (conversation_history s ++ [translated_input])) s.

(** Lines 104-106. *)
Definition bot_input (history_ids : option Tensor) (new_user_input_ids : Tensor) : Tensor :=
  match history_ids with
  | Some ids => torch_cat ids new_user_input_ids
  | None => new_user_input_ids
  end.

(** Lines 96-122: encode, generate, decode. *)
Definition generate_response (translated_input : string) : M string :=
  new_user_input_ids <~ lift_outcome (tokenizer_encode (translated_input ++ eos_token)) ;;
  history_ids <~ gets chat_history_ids ;;
  let bot_input_ids := bot_input history_ids new_user_input_ids in
  out <~ external (Some (CallGenerate bot_input_ids)) (model_generate bot_input_ids) ;;
  modify (set_ids (Some out)) ;;;
  lift_outcome (tokenizer_decode out bot_input_ids).

(** Lines 125-128. *)
Definition from_pivot (response : string) (detected_language : option string) : M string :=
  if translation_enabled cfg && lang_is_not_en detected_language then
    match detected_language with
    | Some l => translate_from_english (language_default cfg) response l
    | None => ret response   (* not reached: see [to_pivot_language] *)
    end
  else ret response.

(** Lines 83-128: what a turn does once the command check has let it through. *)
Definition converse (user_input : string) (input_language : option string) : M string :=
  r <~ to_pivot user_input input_language ;;
  let detected_language := fst r in
  let translated_input := snd r in
  remember translated_input ;;;
  response <~ generate_response translated_input ;;
  from_pivot response detected_language.

(** [process_input(user_input, input_language=None)] *)
Definition process_input (user_input : string) (input_language : option string) : M string :=
  command_response <~ handle_command cfg user_input ;;
  match command_response with
  | Some text => if PyStr.truthy text then ret text else converse user_input input_language
  | None => converse user_input input_language
  end.

End Chatbot.

(** ** Vocabulary of the statements *)


Definition set_custom_commands (d : list (string * list string)) (cfg : Config) : Config :=
  {| language_default := language_default cfg; translation_enabled := translation_enabled cfg;
     max_history := max_history cfg; exit_commands := exit_commands cfg;
     custom_commands := d |}.


(** some phrase of [patterns] occurs in the lowered utterance *)
Definition any_match (patterns : list string) (lowercase_input : string) : bool :=
  existsb (fun pattern => PyStr.contains (PyStr.lower pattern) lowercase_input) patterns.

(** Following the spec's words ("first command-type with any matching phrase
    wins"): the command type declared first among those with a phrase that
    occurs in the lowered utterance. *)
Fixpoint first_match (lowercase_input : string) (commands : list (string * list string))
    : option string :=
  match commands with
  | [] => None
  | (command_type, patterns) :: commands' =>
      if any_match patterns lowercase_input then Some command_type
      else first_match lowercase_input commands'
  end.

(** what [process_input] takes for "not a command": [None] or the empty string *)
Definition falsy (r : option string) : bool :=
  match r with Some text => negb (PyStr.truthy text) | None => true end.

(** the last [n] items of [l], in their order *)
Definition last_items {A : Type} (n : nat) (l : list A) : list A :=
  drop (length l - n) l.

Section Frames.

Context `{Sv : Services}.

(** a method call that returns from every state: no exception leaves it *)
Definition never_raises {A : Type} (m : M A) : Prop :=
  ∀ s, ∃ a s', m s = (Returned a, s').

(** [s'] has the handler table, the history and the generation context of [s] *)
Definition same_memory (s s' : Chatbot) : Prop :=
  builtin_handlers s' = builtin_handlers s ∧
  conversation_history s' = conversation_history s ∧
  chat_history_ids s' = chat_history_ids s.

(** the translation client is among the calls logged in [l] *)
Definition calls_translation (l : list Call) : bool :=
  existsb (fun c => match c with CallTranslate _ _ _ => true | _ => false end) l.

(** the language model is among the calls logged in [l] *)
Definition calls_generation (l : list Call) : bool :=
  existsb (fun c => match c with CallGenerate _ => true | _ => false end) l.

End Frames.

Section Turns.

Context `{Sv : Services}.
Variable cfg : Config.

(** [turns s xs s']: from [s], a run of calls of [process_input] that the
    command check let through leads to [s']; [xs] lists, oldest first, the
    text each of them appended to the history (the utterance in the pivot
    language, as [to_pivot] gave it).  A turn counts whether it returned or
    raised. *)
Inductive turns : Chatbot → list string → Chatbot → Prop :=
| turns_nil s : turns s [] s
| turns_snoc s xs s1 user_input input_language r s2 d x s3 o s4 :
    turns s xs s1 →
    handle_command cfg user_input s1 = (Returned r, s2) →
    falsy r = true →
    to_pivot cfg user_input input_language s2 = (Returned (d, x), s3) →
    process_input cfg user_input input_language s1 = (o, s4) →
    turns s (xs ++ [x]) s4.

(** the history window after appending [xs] one by one to [h] *)
Definition window (h : list string) (xs : list string) : list string :=
  fold_left (fun h x => trim_history cfg (h ++ [x])) xs h.

End Turns.

(** ** Small instances of the services, to run the model on *)

Module Demo.

(** Services whose outside world is a counter of the calls made.  The
    tokenizer makes one token of a text, and the model answers with the
    tokens of [reply] after its input, or raises. *)
Definition services
    (detect : string → outcome string)
    (translate_text : string → string → string → outcome string)
    (reply : outcome (list string)) : Services :=
  {| World := nat;
     Tensor := list string;
     langdetect_detect := fun text w => (detect text, S w);
     googletrans_translate := fun text src dest w => (translate_text text src dest, S w);
     eos_token := "";
     tokenizer_encode := fun text => Returned [text];
     torch_cat := fun a b => (a ++ b)%list;
     model_generate := fun ids w =>
       (match reply with Returned r => Returned (ids ++ r)%list | Raised e => Raised e end, S w);
     tokenizer_decode := fun out ids => Returned (PyStr.join " " (drop (length ids) out));
     now_strftime := fun _ w => ("12:00 PM", S w);
     weather_reply := fun _ w => ("sunny", S w) |}.

(** every text is English, translation is the identity, the model says "hi" *)
Definition english : Services :=
  services (fun _ => Returned "en") (fun text _ _ => Returned text) (Returned ["hi"]).

(** the same, with a model that raises *)
Definition model_down : Services :=
  services (fun _ => Returned "en") (fun text _ _ => Returned text) (Raised "CUDA out of memory").

(** detection raises, the translation client answers "hello" *)
Definition detect_down : Services :=
  services (fun _ => Raised "LangDetectException") (fun _ _ _ => Returned "hello")
           (Returned ["hi"]).

(** every text is French and the translation client raises *)
Definition translate_down : Services :=
  services (fun _ => Returned "fr") (fun _ _ _ => Raised "ConnectError") (Returned ["hi"]).

Definition config (k : Z) (exits : list string) (commands : list (string * list string))
    : Config :=
  {| language_default := "en"; translation_enabled := true; max_history := k;
     exit_commands := exits; custom_commands := commands |}.

(** a freshly constructed chatbot *)
Definition fresh `{Sv : Services} (cfg : Config) (w : World) : Chatbot :=
  {| builtin_handlers := init_builtin_handlers cfg; conversation_history := [];
     chat_history_ids := None; world := w; trace := [] |}.

Definition commands : list (string * list string) :=
  [("joke", ["tell me a joke"]); ("time", ["what time"; "current time"]);
   ("date", ["what date"])].

(** a handler that answers with a fixed text *)
Definition say `{Sv : Services} (text : string) : handler := fun _ w => (Returned text, w).

(** the state after [add_custom_command_handler(label, h)] on a fresh chatbot *)
Definition registered `{Sv : Services} (cfg : Config) (label : string) (h : handler) (w : World)
    : Chatbot :=
  snd (add_custom_command_handler cfg label h (fresh cfg w)).

End Demo.

(** ** Vocabulary for the properties of a turn *)

Definition set_max_history (k : Z) (cfg : Config) : Config :=
  {| language_default := language_default cfg; translation_enabled := translation_enabled cfg;
     max_history := k; exit_commands := exit_commands cfg;
     custom_commands := custom_commands cfg |}.

Section Blind.

Context `{Sv : Services}.

(** [s] and [s'] differ at most in [conversation_history] *)
Definition same_but_history (s s' : Chatbot) : Prop :=
  builtin_handlers s = builtin_handlers s' ∧
  chat_history_ids s = chat_history_ids s' ∧
  world s = world s' ∧
  trace s = trace s'.

(** [m] and [m'] give the same outcome and keep such states together:
    neither looks at the history *)
Definition agree {A : Type} (m m' : M A) : Prop :=
  ∀ s s', same_but_history s s' →
    fst (m s) = fst (m' s') ∧ same_but_history (snd (m s)) (snd (m' s')).

(** the external calls logged between [s] and [s'] *)
Definition new_calls (s s' : Chatbot) : list Call := drop (length (trace s)) (trace s').

End Blind.

Section CallsOnly.

Context `{Sv : Services}.

(** a call about the language of the input: a detection, or a translation into English *)
Definition about_input (c : Call) : bool :=
  match c with
  | CallDetect _ => true
  | CallTranslate _ _ dest => String.eqb dest "en"
  | CallGenerate _ => false
  end.

Definition is_generate (c : Call) : bool :=
  match c with CallGenerate _ => true | _ => false end.

(** [m] only appends to the log, and only calls that satisfy [P] *)
Definition calls_only {A : Type} (P : Call → bool) (m : M A) : Prop :=
  ∀ s, ∃ l, trace (snd (m s)) = (trace s ++ l)%list ∧ forallb P l = true.

End CallsOnly.

(** ** [translation.py]: the table of languages *)

Module Languages.

(** A dict given by its items in source order: [d[key]] is the value of the
    last item with that key. *)
Fixpoint dict_get (key : string) (items : list (string * string)) : option string :=
  match items with
  | [] => None
  | (k, v) :: items' =>
      match dict_get key items' with
      | Some v' => Some v'
      | None => if String.eqb key k then Some v else None
      end
  end.

(** [d.get(key, default)] *)
Definition dict_get_default (key default : string) (items : list (string * string)) : string :=
  match dict_get key items with Some v => v | None => default end.

Definition LANGUAGE_MAPPING : list (string * string) :=
  [("afrikaans", "af"); ("albanian", "sq"); ("amharic", "am"); ("arabic", "ar");
   ("armenian", "hy"); ("azerbaijani", "az"); ("basque", "eu"); ("belarusian", "be");
   ("bengali", "bn"); ("bosnian", "bs"); ("bulgarian", "bg"); ("catalan", "ca");
   ("cebuano", "ceb"); ("chichewa", "ny"); ("chinese (simplified)", "zh-cn");
   ("chinese (traditional)", "zh-tw"); ("corsican", "co"); ("croatian", "hr");
   ("czech", "cs"); ("danish", "da"); ("dutch", "nl"); ("english", "en");
   ("esperanto", "eo"); ("estonian", "et"); ("filipino", "tl"); ("finnish", "fi");
   ("french", "fr"); ("frisian", "fy"); ("galician", "gl"); ("georgian", "ka");
   ("german", "de"); ("greek", "el"); ("gujarati", "gu"); ("haitian creole", "ht");
   ("hausa", "ha"); ("hawaiian", "haw"); ("hebrew", "he"); ("hindi", "hi");
   ("hmong", "hmn"); ("hungarian", "hu"); ("icelandic", "is"); ("igbo", "ig");
   ("indonesian", "id"); ("irish", "ga"); ("italian", "it"); ("japanese", "ja");
   ("javanese", "jw"); ("kannada", "kn"); ("kazakh", "kk"); ("khmer", "km");
   ("korean", "ko"); ("kurdish (kurmanji)", "ku"); ("kyrgyz", "ky"); ("lao", "lo");
   ("latin", "la"); ("latvian", "lv"); ("lithuanian", "lt"); ("luxembourgish", "lb");
   ("macedonian", "mk"); ("malagasy", "mg"); ("malay", "ms"); ("malayalam", "ml");
   ("maltese", "mt"); ("maori", "mi"); ("marathi", "mr"); ("mongolian", "mn");
   ("myanmar (burmese)", "my"); ("nepali", "ne"); ("norwegian", "no"); ("odia", "or");
   ("pashto", "ps"); ("persian", "fa"); ("polish", "pl"); ("portuguese", "pt");
   ("punjabi", "pa"); ("romanian", "ro"); ("russian", "ru"); ("samoan", "sm");
   ("scots gaelic", "gd"); ("serbian", "sr"); ("sesotho", "st"); ("shona", "sn");
   ("sindhi", "sd"); ("sinhala", "si"); ("slovak", "sk"); ("slovenian", "sl");
   ("somali", "so"); ("spanish", "es"); ("sundanese", "su"); ("swahili", "sw");
   ("swedish", "sv"); ("tajik", "tg"); ("tamil", "ta"); ("telugu", "te"); ("thai", "th");
   ("turkish", "tr"); ("ukrainian", "uk"); ("urdu", "ur"); ("uyghur", "ug");
   ("uzbek", "uz"); ("vietnamese", "vi"); ("welsh", "cy"); ("xhosa", "xh");
   ("yiddish", "yi"); ("yoruba", "yo"); ("zulu", "zu")].

(** [{code: lang for lang, code in LANGUAGE_MAPPING.items()}] *)
Definition CODE_TO_LANGUAGE : list (string * string) :=
  map (fun item => (snd item, fst item)) LANGUAGE_MAPPING.

(** [get_language_code(language_name)] *)
Definition get_language_code (language_name : string) : string :=
  dict_get_default (PyStr.lower language_name) language_name LANGUAGE_MAPPING.

(** [get_language_name(language_code)] *)
Definition get_language_name (language_code : string) : string :=
  dict_get_default language_code language_code CODE_TO_LANGUAGE.

(** What holds of an item of the table, checked by running it: the name is
    lowercase and maps to its code, the code maps back to the name, and the
    code is not itself a name. *)
Definition entry_ok (item : string * string) : bool :=
  let '(name, code) := item in
  String.eqb (PyStr.lower name) name &&
  match dict_get name LANGUAGE_MAPPING with Some c => String.eqb c code | None => false end &&
  match dict_get code CODE_TO_LANGUAGE with Some n => String.eqb n name | None => false end &&
  match dict_get (PyStr.lower code) LANGUAGE_MAPPING with Some _ => false | None => true end.

End Languages.

(** ** [utils.py] *)

Module PyText.

(** [c.isspace()] on an ASCII character: tab to carriage return, the four
    separators 28 to 31, and the space *)
Definition is_space (c : ascii) : bool :=
  let n := nat_of_ascii c in
  (Nat.leb 9 n && Nat.leb n 13) || (Nat.leb 28 n && Nat.leb n 32).

(** [s.split()]: the maximal runs of characters that are not whitespace;
    [cur] is the run being read. *)
Fixpoint split_from (cur : string) (s : string) : list string :=
  match s with
  | EmptyString => if PyStr.truthy cur then [cur] else []
  | String c s' =>
      if is_space c
      then (if PyStr.truthy cur then cur :: split_from "" s' else split_from "" s')
      else split_from (cur ++ String c "") s'
  end.

Definition split (s : string) : list string := split_from "" s.

(** [s.lstrip()], [s.rstrip()], [s.strip()] *)
Fixpoint lstrip (s : string) : string :=
  match s with
  | EmptyString => EmptyString
  | String c s' => if is_space c then lstrip s' else s
  end.

Fixpoint rstrip (s : string) : string :=
  match s with
  | EmptyString => EmptyString
  | String c s' =>
      let r := rstrip s' in
      if is_space c && negb (PyStr.truthy r) then EmptyString else String c r
  end.

Definition strip (s : string) : string := rstrip (lstrip s).

Definition upper_ascii (c : ascii) : ascii :=
  let n := nat_of_ascii c in
  if Nat.leb 97 n && Nat.leb n 122 then ascii_of_nat (n - 32) else c.

(** [s.upper()] *)
Fixpoint upper (s : string) : string :=
  match s with
  | EmptyString => EmptyString
  | String c s' => String (upper_ascii c) (upper s')
  end.

(** no character of [s] is whitespace *)
Fixpoint no_space (s : string) : bool :=
  match s with
  | EmptyString => true
  | String c s' => negb (is_space c) && no_space s'
  end.

(** a word: not empty and free of whitespace *)
Definition is_word (w : string) : bool := PyStr.truthy w && no_space w.

End PyText.

Module Utils.

(** [extract_wake_word(text, wake_word)] *)
Definition extract_wake_word (text wake_word : string) : bool :=
  PyStr.contains (PyStr.lower wake_word) (PyStr.lower text).

(** [clean_text(text)] *)
Definition clean_text (text : string) : string :=
  if negb (PyStr.truthy text) then ""
  else PyText.strip (PyStr.join " " (PyText.split text)).

Definition newline : string := String (ascii_of_nat 10) EmptyString.

(** The lines [save_conversation] writes, [i] being the index [enumerate]
    gives to the first message of [messages]. *)
Fixpoint conversation_lines (i : nat) (messages : list string) : string :=
  match messages with
  | [] => ""
  | message :: messages' =>
      let role := if Nat.even i then "User" else "Bot" in
      role ++ ": " ++ message ++ newline ++ conversation_lines (S i) messages'
  end.

(** no newline in [s] *)
Fixpoint one_line (s : string) : bool :=
  match s with
  | EmptyString => true
  | String c s' => negb (Ascii.eqb c (ascii_of_nat 10)) && one_line s'
  end.

(** [level_map.get(level_name.upper(), logging.INFO)], with the numeric
    levels of the [logging] module *)
Definition logging_level (level_name : string) : Z :=
  let name := PyText.upper level_name in
  if String.eqb name "DEBUG" then 10
  else if String.eqb name "INFO" then 20
  else if String.eqb name "WARNING" then 30
  else if String.eqb name "ERROR" then 40
  else if String.eqb name "CRITICAL" then 50
  else 20.

End Utils.

(** ** [speech_to_text.py]: class SpeechToText *)

Module Stt.

(** The exceptions the code tells apart.  In [speech_recognition] the first
    three are separate subclasses of [Exception]. *)
Inductive sr_error : Type :=
| WaitTimeoutError
| UnknownValueError
| RequestError (message : string)
| OtherError (message : string).

Inductive sr_result (A : Type) : Type :=
| Got (a : A)
| Failed (e : sr_error).
Arguments Got {A} a.
Arguments Failed {A} e.

(** The microphone and the recognition service.  [Air] is the state of the
    outside: what is being said, the network. *)
Class Speech : Type := {
  Air : Type;
  Audio : Type;
  (* sr.Microphone(device_index=...).__enter__() and adjust_for_ambient_noise *)
  open_microphone : option Z → Air → sr_result unit * Air;
  (* recognizer.listen(source, timeout=..., phrase_time_limit=...) *)
  record : Air → sr_result Audio * Air;
  (* recognizer.recognize_google(audio, language=...); [None]: no language given *)
  recognize_google : Audio → option string → Air → sr_result string * Air;
  (* langdetect.detect(text) *)
  detect : string → Air → sr_result string * Air
}.

(** [_check_mic_availability()]: the value of [self.device_index] it leaves,
    or the [IndexError] of [available_mics[self.device_index]]. *)
Definition _check_mic_availability (device_index : option Z) (available_mics : list string)
    : outcome (option Z) :=
  match device_index with
  | None => Returned None
  | Some i =>
      if (i <? Z.of_nat (length available_mics))%Z then
        if (i <? - Z.of_nat (length available_mics))%Z
        then Raised "IndexError: list index out of range"
        else Returned (Some i)
      else Returned None
  end.

Section Listening.

Context `{Sp : Speech}.

(** The recognition requests made, by language, oldest first: a ghost log
    carried along with the outside. *)
Definition Ear : Type := (Air * list (option string))%type.

Definition recognize (audio : Audio) (language : option string) (w : Ear)
    : sr_result string * Ear :=
  let '(r, a) := recognize_google audio language (fst w) in
  (r, (a, (snd w ++ [language])%list)).

Definition detect_in (text : string) (w : Ear) : sr_result string * Ear :=
  let '(r, a) := detect text (fst w) in (r, (a, snd w)).

(** Lines 118-139: the recognition proper, which either returns the text
    and its language or raises. *)
Definition transcribe (default_language : string) (auto_detect_language : bool)
    (audio : Audio) (w : Ear) : sr_result (string * string) * Ear :=
  let language := default_language in
  if auto_detect_language then
    let english w :=
      match recognize audio (Some "en") w with
      | (Got text, w) => (Got (text, "en"), w)
      | (Failed e, w) => (Failed e, w)
      end in
    match recognize audio (Some language) w with
    | (Got text, w) =>
        match detect_in text w with
        | (Got detected_lang, w) =>
            if negb (String.eqb detected_lang language) then
              match recognize audio (Some detected_lang) w with
              | (Got text, w) => (Got (text, detected_lang), w)
              | (Failed _, w) => english w
              end
            else (Got (text, language), w)
        | (Failed _, w) => english w
        end
    | (Failed _, w) => english w
    end
  else
    match recognize audio (Some language) w with
    | (Got text, w) => (Got (text, language), w)
    | (Failed e, w) => (Failed e, w)
    end.

(** [listen_and_transcribe()]: [Got None] is the pair [(None, None)]. *)
Definition listen_and_transcribe (device_index : option Z) (default_language : string)
    (auto_detect_language : bool) (w : Ear) : sr_result (option (string * string)) * Ear :=
  match open_microphone device_index (fst w) with
  | (Failed e, a) => (Failed e, (a, snd w))
  | (Got _, a) =>
      match record a with
      | (Failed _, a) => (Got None, (a, snd w))
      | (Got audio, a) =>
          match transcribe default_language auto_detect_language audio (a, snd w) with
          | (Got r, w) => (Got (Some r), w)
          | (Failed _, w) => (Got None, w)
          end
      end
  end.

(** [listen_for_wake_word(wake_word)] *)
Definition listen_for_wake_word (device_index : option Z) (wake_word : string) (w : Ear)
    : sr_result bool * Ear :=
  match open_microphone device_index (fst w) with
  | (Failed e, a) => (Failed e, (a, snd w))
  | (Got _, a) =>
      match record a with
      | (Failed WaitTimeoutError, a) => (Got false, (a, snd w))
      | (Failed e, a) => (Failed e, (a, snd w))
      | (Got audio, a) =>
          match recognize audio None (a, snd w) with
          | (Got heard, w) =>
              let text := PyStr.lower heard in
              if PyStr.contains (PyStr.lower wake_word) (PyStr.lower text)
              then (Got true, w) else (Got false, w)
          | (Failed UnknownValueError, w) => (Got false, w)
          | (Failed (RequestError _), w) => (Got false, w)
          | (Failed WaitTimeoutError, w) => (Got false, w)
          | (Failed e, w) => (Failed e, w)
          end
      end
  end.

End Listening.

End Stt.

(** ** [text_to_speech.py]: class TextToSpeech *)

Module Tts.

(** The speech engines.  [Room] is the state of the outside: the sound
    card, the Riva server. *)
Class Engines : Type := {
  Room : Type;
  (* pyttsx3.init() *)
  pyttsx3_init : Room → outcome unit * Room;
  (* engine.setProperty(name, value) *)
  set_property : string → string → Room → outcome unit * Room;
  (* engine.getProperty('voices'): the (name, id) of each voice *)
  get_voices : Room → outcome (list (string * string)) * Room;
  (* platform.system() *)
  platform_system : string;
  (* import grpc; import nvidia.riva.client: None when the import works,
     else the ImportError *)
  import_grpc : option exn;
  import_riva : option exn;
  (* nvidia.riva.client.Auth(...) and SpeechSynthesisClient(server_url, auth=auth) *)
  riva_connect : string → option string → Room → outcome unit * Room;
  (* engine.say(text); engine.runAndWait() *)
  pyttsx3_say : string → Room → outcome unit * Room;
  (* riva_client.synthesize(...), writing and playing the samples *)
  riva_say : string → Room → outcome unit * Room
}.

(** config["speech"]["output"] and config["speech"]["riva"] *)
Record SpeechConfig : Type := {
  engine_name : string;        (* ["output"]["engine"] *)
  rate : string;               (* ["output"]["rate"] *)
  volume : string;             (* ["output"]["volume"] *)
  voice_id : option string;    (* ["output"]["voice_id"] *)
  riva_enabled : bool;         (* ["riva"]["enabled"] *)
  riva_server_url : string;    (* ["riva"]["server_url"] *)
  riva_auth_key : option string (* ["riva"]["auth_key"] *)
}.

(** Lines 73-91 of [_set_default_voice]: the id of the voice picked among
    [voices], which are not empty there. *)
Fixpoint first_named (word : string) (voices : list (string * string)) : option string :=
  match voices with
  | [] => None
  | (name, id) :: voices' =>
      if PyStr.contains word (PyStr.lower name) then Some id else first_named word voices'
  end.

Definition pick_voice (system : string) (voices : list (string * string)) : option string :=
  let first := match voices with [] => None | (_, id) :: _ => Some id end in
  let named word :=
    match first_named word voices with Some id => Some id | None => first end in
  if String.eqb system "Windows" then named "female"
  else if String.eqb system "Darwin" then named "samantha"
  else first.

Section Speaking.

Context `{En : Engines}.

(** The attributes of the object, [None] for an attribute that is not set,
    and a ghost log of what was said, by which engine. *)
Record TextToSpeech : Type := {
  engine_type : string;
  engine : option unit;        (* self.engine *)
  riva_client : option unit;   (* self.riva_client *)
  room : Room;
  said : list (string * string)
}.

Definition T (A : Type) : Type := TextToSpeech → outcome A * TextToSpeech.

Definition call {A} (f : Room → outcome A * Room) : T A :=
  fun t => let '(r, w) := f (room t) in
           (r, {| engine_type := engine_type t; engine := engine t;
                  riva_client := riva_client t; room := w; said := said t |}).

Definition tbind {A B} (m : T A) (k : A → T B) : T B :=
  fun t => match m t with
           | (Returned a, t') => k a t'
           | (Raised e, t') => (Raised e, t')
           end.

Definition tret {A} (a : A) : T A := fun t => (Returned a, t).

(** [try: m  except Exception: pass] *)
Definition swallow (m : T unit) : T unit :=
  fun t => match m t with
           | (Returned a, t') => (Returned a, t')
           | (Raised _, t') => (Returned tt, t')
           end.

Definition set_engine_type (name : string) : T unit :=
  fun t => (Returned tt, {| engine_type := name; engine := engine t;
                            riva_client := riva_client t; room := room t; said := said t |}).

Definition set_engine : T unit :=
  fun t => (Returned tt, {| engine_type := engine_type t; engine := Some tt;
                            riva_client := riva_client t; room := room t; said := said t |}).

Definition set_riva_client : T unit :=
  fun t => (Returned tt, {| engine_type := engine_type t; engine := engine t;
                            riva_client := Some tt; room := room t; said := said t |}).

Definition log_said (by_engine text : string) : T unit :=
  fun t => (Returned tt, {| engine_type := engine_type t; engine := engine t;
                            riva_client := riva_client t; room := room t;
                            said := (said t ++ [(by_engine, text)])%list |}).

(** [_set_default_voice()] *)
Definition _set_default_voice : T unit :=
  swallow
    (tbind (call get_voices) (fun voices =>
     match pick_voice platform_system voices with
     | None => tret tt
     | Some id => call (set_property "voice" id)
     end)).

(** [_init_pyttsx3()] *)
Definition _init_pyttsx3 (cfg : SpeechConfig) : T unit :=
  tbind (call pyttsx3_init) (fun _ =>
  tbind set_engine (fun _ =>
  tbind (call (set_property "rate" (rate cfg))) (fun _ =>
  tbind (call (set_property "volume" (volume cfg))) (fun _ =>
  match voice_id cfg with
  | Some id => if PyStr.truthy id then call (set_property "voice" id) else _set_default_voice
  | None => _set_default_voice
  end)))).

(** [_init_riva()] *)
Definition _init_riva (cfg : SpeechConfig) : T unit :=
  let fallback := tbind (set_engine_type "pyttsx3") (fun _ => _init_pyttsx3 cfg) in
  match import_grpc with
  | Some _ => fallback
  | None =>
      match import_riva with
      | Some _ => fallback
      | None =>
          let auth := match riva_auth_key cfg with
                      | Some key => if PyStr.truthy key then Some key else None
                      | None => None
                      end in
          fun t => match call (riva_connect (riva_server_url cfg) auth) t with
                   | (Returned _, t') => set_riva_client t'
                   | (Raised _, t') => fallback t'
                   end
      end
  end.

(** [__init__(config)], from the engine choice on; the object starts with
    no engine and no client. *)
Definition init (cfg : SpeechConfig) (w : Room) : outcome unit * TextToSpeech :=
  let t0 := {| engine_type := engine_name cfg; engine := None; riva_client := None;
               room := w; said := [] |} in
  if String.eqb (engine_name cfg) "pyttsx3" then _init_pyttsx3 cfg t0
  else if String.eqb (engine_name cfg) "riva" && riva_enabled cfg then _init_riva cfg t0
  else tbind (set_engine_type "pyttsx3") (fun _ => _init_pyttsx3 cfg) t0.

(** [self.engine] and [self.riva_client]: an attribute that is not set
    raises [AttributeError] *)
Definition the_engine : T unit :=
  fun t => match engine t with
           | Some _ => (Returned tt, t)
           | None => (Raised "AttributeError", t)
           end.

Definition the_riva_client : T unit :=
  fun t => match riva_client t with
           | Some _ => (Returned tt, t)
           | None => (Raised "AttributeError", t)
           end.

(** [_speak_pyttsx3(text)] *)
Definition _speak_pyttsx3 (text : string) : T unit :=
  swallow (tbind the_engine (fun _ =>
           tbind (call (pyttsx3_say text)) (fun _ => log_said "pyttsx3" text))).

(** [_speak_riva(text)] *)
Definition _speak_riva (text : string) : T unit :=
  fun t => match tbind the_riva_client (fun _ =>
                  tbind (call (riva_say text)) (fun _ => log_said "riva" text)) t with
           | (Returned _, t') => (Returned tt, t')
           | (Raised _, t') =>
               match engine t' with
               | Some _ => _speak_pyttsx3 text t'
               | None => (Returned tt, t')
               end
           end.

(** [speak(text)] *)
Definition speak (text : string) : T unit :=
  if negb (PyStr.truthy text) then tret tt
  else fun t =>
    if String.eqb (engine_type t) "pyttsx3" then _speak_pyttsx3 text t
    else if String.eqb (engine_type t) "riva" then _speak_riva text t
    else (Returned tt, t).

(** [m] leaves the attributes and the log of what was said alone *)
Definition keeps {A} (m : T A) : Prop :=
  ∀ t o t', m t = (o, t') →
    engine_type t' = engine_type t ∧ engine t' = engine t ∧
    riva_client t' = riva_client t ∧ said t' = said t.

(** the object has one engine, the one [engine_type] names *)
Definition settled (t : TextToSpeech) : Prop :=
  (engine_type t = "pyttsx3" ∧ engine t = Some tt ∧ riva_client t = None) ∨
  (engine_type t = "riva" ∧ engine t = None ∧ riva_client t = Some tt).

End Speaking.

End Tts.

(** ** [chatbot.py]: Chatbot.speak and Chatbot.start, typed input *)

Section Session.

Context `{Sv : Services} `{En : Tts.Engines}.
Variable cfg : Config.

(** What is typed at the prompt: a line, or Ctrl-C.  When the list is
    used up, [input] raises [EOFError]. *)
Inductive stdin_event : Type :=
| Typed (line : string)
| CtrlC.

(** The chatbot with its voice ([None] when [use_voice_output] is false)
    and the lines printed so far. *)
Record Console : Type := {
  chatbot : Chatbot;
  tts : option Tts.TextToSpeech;
  printed : list string
}.

Definition print (line : string) (c : Console) : Console :=
  {| chatbot := chatbot c; tts := tts c; printed := printed c ++ [line] |}.

(** [speak(text)] *)
Definition speak (text : string) (c : Console) : outcome unit * Console :=
  match tts c with
  | Some t =>
      match Tts.speak text t with
      | (Returned _, t') =>
          (Returned tt, print ("Bot: " ++ text)
                          {| chatbot := chatbot c; tts := Some t'; printed := printed c |})
      | (Raised e, t') =>
          (Raised e, {| chatbot := chatbot c; tts := Some t'; printed := printed c |})
      end
  | None => (Returned tt, print ("Bot: " ++ text) c)
  end.

(** How the [while True] loop of [start] is left. *)
Inductive ending : Type :=
| Broke                       (* the [break] after an exit phrase *)
| Interrupted                 (* KeyboardInterrupt *)
| Crashed (e : exn).          (* any other exception *)

(** Lines 162-180 with [use_voice_input] false: the ending, the console,
    and the input left unread. *)
Fixpoint conversation_loop (stdin : list stdin_event) (c : Console)
    : ending * Console * list stdin_event :=
  match stdin with
  | [] => (Crashed "EOF when reading a line", c, [])
  | CtrlC :: rest => (Interrupted, c, rest)
  | Typed user_input :: rest =>
      if PyList.mem (PyStr.lower user_input) (exit_commands cfg) then
        match speak "Goodbye!" c with
        | (Returned _, c') => (Broke, c', rest)
        | (Raised e, c') => (Crashed e, c', rest)
        end
      else
        match process_input cfg user_input None (chatbot c) with
        | (Returned response, s') =>
            match speak response {| chatbot := s'; tts := tts c; printed := printed c |} with
            | (Returned _, c') => conversation_loop rest c'
            | (Raised e, c') => (Crashed e, c', rest)
            end
        | (Raised e, s') =>
            (Crashed e, {| chatbot := s'; tts := tts c; printed := printed c |}, rest)
        end
  end.

(** [start()] with [use_voice_input] false *)
Definition start (wake_word : string) (stdin : list stdin_event) (c : Console)
    : Console * list stdin_event :=
  let c := print ("Chatbot initialized. Say '" ++ wake_word ++ "' to start talking.") c in
  let '(how, c, rest) := conversation_loop stdin c in
  let c := match how with
           | Broke => c
           | Interrupted => print (String (ascii_of_nat 10) "Exiting chatbot...") c
           | Crashed e => print ("An error occurred: " ++ e) c
           end in
  (print "Chatbot terminated." c, rest).

End Session.

(** ** [examples/example_usage.py]: the language prompt *)

Module Example.

(** The body of the [while True] loop of [multilingual_chatbot_example] on
    one typed line: the language code the chatbot is started with, or
    [None] when the line is turned down and the prompt is shown again. *)
Definition choose_language (typed : string) : option string :=
  let lang_choice := PyStr.lower (PyText.strip typed) in
  if negb (PyStr.truthy lang_choice) then Some "en"
  else
    match Languages.dict_get lang_choice Languages.LANGUAGE_MAPPING with
    | Some code => Some code
    | None =>
        if PyList.mem lang_choice (map snd Languages.LANGUAGE_MAPPING)
        then Some lang_choice else None
    end.

End Example.

(** ** Small instances of the speech services *)

Module DemoSpeech.

(** A microphone that always records, a recognizer that answers by
    language as [answers] says, and a detector that answers [detected]. *)
Definition speech (answers : option string → Stt.sr_result string)
    (detected : Stt.sr_result string) : Stt.Speech :=
  {| Stt.Air := nat;
     Stt.Audio := unit;
     Stt.open_microphone := fun _ a => (Stt.Got tt, S a);
     Stt.record := fun a => (Stt.Got tt, S a);
     Stt.recognize_google := fun _ language a => (answers language, S a);
     Stt.detect := fun _ a => (detected, S a) |}.

(** Indonesian speech with Indonesian as the default language: understood
    at once. *)
Definition indonesian : Stt.Speech :=
  speech (fun language =>
            match language with
            | Some "id" => Stt.Got "selamat pagi"
            | _ => Stt.Failed Stt.UnknownValueError
            end)
         (Stt.Got "id").

(** A recognizer that only answers without a language, with "Hey JARVIS". *)
Definition wake : Stt.Speech :=
  speech (fun language =>
            match language with
            | None => Stt.Got "Hey JARVIS"
            | Some _ => Stt.Failed Stt.UnknownValueError
            end)
         (Stt.Got "en").

(** Engines that start; Riva connects when [riva_up] and speaks when [riva_speaks]. *)
Definition engines (riva_up riva_speaks : bool) : Tts.Engines :=
  {| Tts.Room := nat;
     Tts.pyttsx3_init := fun w => (Returned tt, S w);
     Tts.set_property := fun _ _ w => (Returned tt, S w);
     Tts.get_voices := fun w => (Returned [("Alex", "v0"); ("Zira Female", "v1")], S w);
     Tts.platform_system := "Windows";
     Tts.import_grpc := None;
     Tts.import_riva := None;
     Tts.riva_connect := fun _ _ w =>
       (if riva_up then Returned tt else Raised "ConnectionError", S w);
     Tts.pyttsx3_say := fun _ w => (Returned tt, S w);
     Tts.riva_say := fun _ w =>
       (if riva_speaks then Returned tt else Raised "RpcError", S w) |}.

Definition riva_config : Tts.SpeechConfig :=
  {| Tts.engine_name := "riva"; Tts.rate := "150"; Tts.volume := "1.0";
     Tts.voice_id := None; Tts.riva_enabled := true;
     Tts.riva_server_url := "localhost:50051"; Tts.riva_auth_key := None |}.

End DemoSpeech.

(** ** Text within ASCII *)

Module PyAscii.

(** [s.isascii()].  The strings of this development are the UTF-8 bytes of
    the Python strings.  On a text of ASCII characters [PyStr.lower],
    [PyText.upper] and [PyText.is_space] are [str.lower], [str.upper] and
    [str.isspace]; the bytes of any other character they leave alone, which
    [str.lower] and [str.upper] do not always do.  The statements that
    depend on what lowering or raising the case does to a character are
    therefore made of ASCII text. *)
Fixpoint is_ascii (s : string) : bool :=
  match s with
  | EmptyString => true
  | String c s' => Nat.ltb (nat_of_ascii c) 128 && is_ascii s'
  end.


End PyAscii.

(** * Facts about the string operations *)

Module PyStrFacts.
Import PyStr.

Lemma lower_ascii_not_upper (c : ascii) : is_upper (lower_ascii c) = false.
Proof. destruct c as [[] [] [] [] [] [] [] []]; reflexivity. Qed.

Lemma lower_ascii_idem (c : ascii) : lower_ascii (lower_ascii c) = lower_ascii c.
Proof.
  unfold lower_ascii at 1. now rewrite lower_ascii_not_upper.
Qed.


Lemma lower_idem (s : string) : lower (lower s) = lower s.
Proof.
  induction s as [|c s IH]; simpl; [reflexivity|].
  now rewrite lower_ascii_idem, IH.
Qed.

Lemma lower_fixed (s : string) : has_upper s = false → lower s = s.
Proof.
  induction s as [|c s IH]; simpl; [reflexivity|].
  intros H. apply orb_false_iff in H as [Hc Hs].
  unfold lower_ascii. rewrite Hc, IH by assumption. reflexivity.
Qed.


Lemma truthy_false (s : string) : truthy s = false ↔ s = "".
Proof. destruct s; simpl; split; intros; congruence. Qed.

Lemma truthy_lower (s : string) : truthy (lower s) = truthy s.
Proof. destruct s; reflexivity. Qed.

Lemma prefix_spec (p s : string) :
  String.prefix p s = true ↔ ∃ rest, s = p ++ rest.
Proof.
  revert s. induction p as [|c p IH]; intros s.
  - split; [intros _; now exists s | intros _; destruct s; reflexivity].
  - destruct s as [|d s]; simpl.
    + split; [discriminate | intros [rest H]; discriminate].
    + destruct (ascii_dec c d) as [->|Hne].
      * rewrite IH. split; intros [rest H]; exists rest.
        -- simpl. now rewrite H.
        -- simpl in H. now injection H.
      * split; [discriminate | intros [rest H]; simpl in H; injection H; congruence].
Qed.

(** [contains] decides occurrence as a contiguous substring *)
Lemma contains_spec (needle hay : string) :
  contains needle hay = true ↔ ∃ before after, hay = before ++ needle ++ after.
Proof.
  induction hay as [|c hay IH]; cbn [contains].
  - rewrite orb_false_r, prefix_spec. split.
    + intros [rest H]. exists "", rest. exact H.
    + intros [[|b before] [after H]]; [now exists after | discriminate].
  - rewrite orb_true_iff, prefix_spec, IH. split.
    + intros [[rest H] | (before & after & H)].
      * exists "", rest. exact H.
      * exists (String c before), after. simpl. now rewrite H.
    + intros [[|b before] [after H]].
      * left. now exists after.
      * right. exists before, after. simpl in H. now injection H.
Qed.

Lemma contains_empty (hay : string) : contains "" hay = true.
Proof. destruct hay; reflexivity. Qed.

Lemma mem_spec (x : string) (l : list string) : PyList.mem x l = true ↔ In x l.
Proof.
  unfold PyList.mem. rewrite existsb_exists. split.
  - intros (y & Hy & Heq). apply String.eqb_eq in Heq. now subst.
  - intros H. exists x. split; [assumption | apply String.eqb_refl].
Qed.

Example lower_mixed : lower "What TIME is it?" = "what time is it?".
Proof. reflexivity. Qed.

Example contains_inside : contains "time" "what time is it" = true.
Proof. reflexivity. Qed.

Example contains_not : contains "date" "what time is it" = false.
Proof. reflexivity. Qed.

(** [[1, 2, 3][-2:]], [[1, 2, 3][-5:]] and [[1, 2, 3][-0:]] *)
Example slice_last_two : PyList.slice_from (-2) [1; 2; 3]%Z = [2; 3]%Z.
Proof. reflexivity. Qed.

Example slice_clamped : PyList.slice_from (-5) [1; 2; 3]%Z = [1; 2; 3]%Z.
Proof. reflexivity. Qed.

Example slice_minus_zero : PyList.slice_from (- 0) [1; 2; 3]%Z = [1; 2; 3]%Z.
Proof. reflexivity. Qed.

End PyStrFacts.

(** * The command handler *)

Section CommandHandlerFacts.

Context `{Sv : Services}.
Variable cfg : Config.

Lemma table_get_In (key : string) (d : list (string * list string)) :
  table_has key d = true ↔ In key (map fst d).
Proof.
  unfold table_has. induction d as [|[k v] d IH]; simpl.
  - split; [discriminate | tauto].
  - destruct (String.eqb_spec key k) as [->|Hne].
    + split; auto.
    + rewrite IH. split; [auto | intros [H|H]; congruence].
Qed.



(** The inner loop returns exactly when a phrase matches and the type has
    a handler, and then it returns that handler. *)
Lemma scan_patterns_spec handlers li ct (patterns : list string) :
  scan_patterns handlers li ct patterns =
  if any_match patterns li then handlers !! ct else None.
Proof.
  induction patterns as [|p ps IH]; simpl; [reflexivity|].
  unfold pattern_matches. destruct (PyStr.contains (PyStr.lower p) li); simpl.
  - destruct (handlers !! ct) eqn:E; [reflexivity|].
    rewrite IH. destruct (any_match ps li); congruence.
  - exact IH.
Qed.

(** Entries that match no phrase, or whose type has no handler, are passed over. *)
Lemma scan_commands_skip handlers li (before rest : list (string * list string)) :
  (∀ entry, In entry before →
     any_match (snd entry) li = true → handlers !! (fst entry) = None) →
  scan_commands handlers li (before ++ rest) = scan_commands handlers li rest.
Proof.
  induction before as [|[ct ps] before IH]; intros Hskip; simpl; [reflexivity|].
  rewrite scan_patterns_spec.
  assert (Hhere : (if any_match ps li then handlers !! ct else None) = None).
  { destruct (any_match ps li) eqn:E; [|reflexivity].
    apply (Hskip (ct, ps)); [now left | exact E]. }
  rewrite Hhere. apply IH. intros entry Hin. apply Hskip. now right.
Qed.

(** A command only ever changes the outside world: the handler table, the
    history, the generation context and the log of service calls stay. *)
Lemma handle_command_frame user_input s o s' :
  handle_command cfg user_input s = (o, s') →
  builtin_handlers s' = builtin_handlers s ∧
  conversation_history s' = conversation_history s ∧
  chat_history_ids s' = chat_history_ids s ∧
  trace s' = trace s.
Proof.
  unfold handle_command, invoke, bind, gets, ret, external.
  destruct (negb (PyStr.truthy user_input)); [intros [= <- <-]; auto|].
  destruct (PyList.mem _ _); [intros [= <- <-]; auto|].
  destruct (scan_commands _ _ _) as [[ct h]|]; [|intros [= <- <-]; auto].
  destruct (h user_input (world s)) as [[r|e] w]; intros [= <- <-]; auto.
Qed.

End CommandHandlerFacts.

(** C8.  Registering a handler fails closed: for a label that the configured
    table of command types does not have, [add_custom_command_handler]
    returns [False] and changes nothing; for a label the table has, it
    returns [True], the dispatch table then maps the label to the new handler
    (installed, or put in place of the former one), every other label keeps
    its handler and nothing else changes. *)
Theorem add_custom_command_handler_fail_closed `{Sv : Services}
    (cfg : Config) (command_type : string) (handler_function : handler) (s : Chatbot) :
  (¬ In command_type (map fst (custom_commands cfg)) →
     add_custom_command_handler cfg command_type handler_function s = (Returned false, s)) ∧
  (In command_type (map fst (custom_commands cfg)) →
     ∃ s', add_custom_command_handler cfg command_type handler_function s = (Returned true, s') ∧
       builtin_handlers s' !! command_type = Some handler_function ∧
       (∀ other, other ≠ command_type →
          builtin_handlers s' !! other = builtin_handlers s !! other) ∧
       conversation_history s' = conversation_history s ∧
       chat_history_ids s' = chat_history_ids s ∧
       world s' = world s ∧ trace s' = trace s).
Proof.
  unfold add_custom_command_handler. split; intros Hlabel.
  - destruct (table_has command_type (custom_commands cfg)) eqn:E; [|reflexivity].
    apply table_get_In in E. contradiction.
  - apply table_get_In in Hlabel. rewrite Hlabel. simpl.
    eexists. split; [reflexivity|]. simpl. split; [apply lookup_insert_eq|].
    split; [|auto]. intros other Hne. now apply lookup_insert_ne.
Qed.

Lemma add_custom_command_handler_fail_closed_witness :
  let cfg := Demo.config 5 ["bye"] Demo.commands in
  let s := Demo.fresh (Sv := Demo.english) cfg 0%nat in
  add_custom_command_handler cfg "sing" (Demo.say "la") s = (Returned false, s) ∧
  ∃ s', add_custom_command_handler cfg "time" (Demo.say "noon") s = (Returned true, s') ∧
        builtin_handlers s' !! "time" = Some (Demo.say "noon").
Proof.
  intros cfg s. split.
  - apply (add_custom_command_handler_fail_closed cfg "sing").
    simpl. intros [H|[H|[H|[]]]]; discriminate.
  - destruct (add_custom_command_handler_fail_closed cfg "time" (Demo.say "noon") s)
      as [_ Hpresent].
    destruct Hpresent as (s' & Hrun & Hnew & _).
    + simpl. right. left. reflexivity.
    + exists s'. split; assumption.
Defined.

(** C6, as stated, fails on the empty utterance: with the empty string among
    the exit phrases, the lowered form of [""] is an exit phrase, yet the
    guard [if not user_input] makes [handle_command] return [None]. *)
Lemma exit_precedence_counterexample :
  let cfg := Demo.config 5 [""; "bye"] Demo.commands in
  let s := Demo.fresh (Sv := Demo.english) cfg 0%nat in
  In (PyStr.lower "") (exit_commands cfg) ∧
  handle_command cfg "" s = (Returned None, s) ∧
  handle_command cfg "" s ≠ (Returned (Some "Goodbye!"), s).
Proof.
  intros cfg s. split; [now left|]. split; [reflexivity|]. discriminate.
Qed.

(** C6, amended.  For every non-empty utterance whose lowered form is one of
    the configured exit phrases, [handle_command] returns the farewell,
    whatever the command table and the handler table hold: the exit check
    runs before any trigger phrase is looked at, and no handler is called
    (the state is unchanged). *)
Theorem exit_precedence `{Sv : Services} (cfg : Config) (user_input : string) (s : Chatbot) :
  user_input ≠ "" →
  In (PyStr.lower user_input) (exit_commands cfg) →
  handle_command cfg user_input s = (Returned (Some "Goodbye!"), s).
Proof.
  intros Hne Hexit. unfold handle_command.
  destruct (PyStr.truthy user_input) eqn:E.
  - apply PyStrFacts.mem_spec in Hexit. simpl. rewrite Hexit. reflexivity.
  - apply PyStrFacts.truthy_false in E. contradiction.
Qed.

Lemma exit_precedence_witness :
  let cfg := Demo.config 5 ["bye"; "what time is it, bye"] Demo.commands in
  let s := Demo.fresh (Sv := Demo.english) cfg 0%nat in
  any_match ["what time"] (PyStr.lower "What time is it, BYE") = true ∧
  handle_command cfg "What time is it, BYE" s = (Returned (Some "Goodbye!"), s).
Proof.
  intros cfg s. split; [reflexivity|].
  apply (exit_precedence cfg "What time is it, BYE" s).
  - discriminate.
  - simpl. right. left. reflexivity.
Defined.

(** C3, as stated, fails when the command type declared first among the
    matching ones has no handler: the loop of [handle_command] does not stop
    there, it goes on to the later command types and calls the handler of
    one of them.  Here "joke" is declared before "time", a phrase of each
    occurs in the utterance, and the handler called is the one of "time". *)
Lemma first_match_wins_counterexample :
  let cfg := Demo.config 5 ["bye"] Demo.commands in
  let s := Demo.fresh (Sv := Demo.english) cfg 0%nat in
  let user_input := "Tell me a joke about what time it is" in
  first_match (PyStr.lower user_input) (custom_commands cfg) = Some "joke" ∧
  any_match ["what time"; "current time"] (PyStr.lower user_input) = true ∧
  builtin_handlers s !! "joke" = None ∧
  fst <$> scan_commands (builtin_handlers s) (PyStr.lower user_input) (custom_commands cfg)
    = Some "time" ∧
  handle_command cfg user_input s = invoke _handle_time_command user_input s ∧
  fst (handle_command cfg user_input s) = Returned (Some "The current time is 12:00 PM.").
Proof.
  intros cfg s user_input. repeat split; vm_compute; reflexivity.
Qed.

(** C3, amended.  For every non-empty utterance that is not an exit phrase,
    [handle_command] calls the handler of the first command type, in
    configuration order, that has both a trigger phrase occurring in the
    utterance and a registered handler; a matching command type without a
    handler is passed over.  No later command type is checked: the result is
    the same whatever is declared after that command type. *)
Theorem first_handled_match_wins `{Sv : Services} (cfg : Config) (user_input : string)
    (s : Chatbot) (before after : list (string * list string))
    (command_type : string) (patterns : list string) (h : handler) :
  user_input ≠ "" →
  ¬ In (PyStr.lower user_input) (exit_commands cfg) →
  custom_commands cfg = (before ++ (command_type, patterns) :: after)%list →
  (∀ entry, In entry before →
     any_match (snd entry) (PyStr.lower user_input) = true →
     builtin_handlers s !! fst entry = None) →
  any_match patterns (PyStr.lower user_input) = true →
  builtin_handlers s !! command_type = Some h →
  handle_command cfg user_input s = invoke h user_input s ∧
  ∀ after',
    handle_command
      (set_custom_commands (before ++ (command_type, patterns) :: after')%list cfg)
      user_input s
    = invoke h user_input s.
Proof.
  intros Hne Hexit Hcmds Hskip Hmatch Hh.
  assert (Hscan : ∀ rest,
             scan_commands (builtin_handlers s) (PyStr.lower user_input)
               (before ++ (command_type, patterns) :: rest)%list = Some (command_type, h)).
  { intros rest. rewrite scan_commands_skip by exact Hskip.
    simpl. now rewrite scan_patterns_spec, Hmatch, Hh. }
  assert (Hmem : PyList.mem (PyStr.lower user_input) (exit_commands cfg) = false).
  { destruct (PyList.mem _ _) eqn:E; [|reflexivity].
    apply PyStrFacts.mem_spec in E. contradiction. }
  assert (Htruthy : PyStr.truthy user_input = true).
  { destruct user_input; [contradiction | reflexivity]. }
  split; [|intros after'];
    unfold handle_command, set_custom_commands;
    cbn [exit_commands custom_commands];
    rewrite Htruthy, Hmem; cbn [negb]; unfold bind at 1, gets;
    [rewrite Hcmds|]; now rewrite Hscan.
Qed.

Lemma first_handled_match_wins_witness :
  let cfg := Demo.config 5 ["bye"] Demo.commands in
  let s := Demo.fresh (Sv := Demo.english) cfg 0%nat in
  let user_input := "Tell me a joke about what time it is" in
  handle_command cfg user_input s = invoke _handle_time_command user_input s.
Proof.
  intros cfg s user_input.
  apply (first_handled_match_wins cfg user_input s
           [("joke", ["tell me a joke"])] [("date", ["what date"])]
           "time" ["what time"; "current time"] _handle_time_command).
  - discriminate.
  - simpl. intros [H|[]]. discriminate.
  - reflexivity.
  - intros entry [<-|[]] _. reflexivity.
  - reflexivity.
  - reflexivity.
Defined.

(** * The translator *)

Section TranslatorFacts.

Context `{Sv : Services}.
Variable default_language : string.

Lemma same_memory_refl s : same_memory s s.
Proof. repeat split. Qed.

Lemma same_memory_trans s1 s2 s3 : same_memory s1 s2 → same_memory s2 s3 → same_memory s1 s3.
Proof. intros (?&?&?) (?&?&?). repeat split; congruence. Qed.

(** Detection makes one logged call and answers whatever that call does. *)
Lemma detect_language_run text s :
  ∃ l, detect_language default_language text s
       = (Returned l, set_world (snd (langdetect_detect text (world s)))
                        (log_call (CallDetect text) s)) ∧
       l = match fst (langdetect_detect text (world s)) with
           | Returned d => d
           | Raised _ => default_language
           end.
Proof.
  unfold detect_language, try_except, external, ret. cbn [world log_call].
  destruct (langdetect_detect text (world s)) as [[d|e] w]; eexists; split; reflexivity.
Qed.

Lemma detect_language_never_raises text : never_raises (detect_language default_language text).
Proof. intros s. destruct (detect_language_run text s) as (l & H & _). eauto. Qed.

Lemma detect_language_memory text s o s' :
  detect_language default_language text s = (o, s') → same_memory s s'.
Proof.
  destruct (detect_language_run text s) as (l & H & _). rewrite H.
  intros [= <- <-]. repeat split.
Qed.

(** [translate] with a given source language: the three ways out. *)
Lemma translate_from_source text source_lang target_lang s :
  translate default_language text (Some source_lang) target_lang s =
  if negb (PyStr.truthy text) then (Returned "", s)
  else if String.eqb source_lang target_lang then (Returned text, s)
  else
    let s1 := log_call (CallTranslate text source_lang target_lang) s in
    let r := googletrans_translate text source_lang target_lang (world s) in
    (Returned (match fst r with Returned t => t | Raised _ => text end), set_world (snd r) s1).
Proof.
  unfold translate. destruct (negb (PyStr.truthy text)); [reflexivity|].
  unfold try_except, bind, ret. destruct (String.eqb source_lang target_lang); [reflexivity|].
  unfold external. cbn [world log_call].
  destruct (googletrans_translate _ _ _ _) as [[t|e] w]; reflexivity.
Qed.

(** [translate] with the source language left to detection. *)
Lemma translate_detecting text target_lang s l s1 :
  PyStr.truthy text = true →
  detect_language default_language text s = (Returned l, s1) →
  translate default_language text None target_lang s
  = translate default_language text (Some l) target_lang s1.
Proof.
  intros Ht Hd. unfold translate. rewrite Ht. cbn [negb].
  unfold try_except, bind. rewrite Hd. reflexivity.
Qed.

Lemma translate_never_raises text source_lang target_lang :
  never_raises (translate default_language text source_lang target_lang).
Proof.
  intros s. destruct (PyStr.truthy text) eqn:Ht.
  - destruct source_lang as [l|].
    + rewrite translate_from_source, Ht. cbn [negb].
      destruct (String.eqb l target_lang); eauto.
    + destruct (detect_language_never_raises text s) as (l & s1 & Hd).
      rewrite (translate_detecting _ _ _ _ _ Ht Hd), translate_from_source, Ht. cbn [negb].
      destruct (String.eqb l target_lang); eauto.
  - unfold translate. rewrite Ht. unfold ret. eauto.
Qed.

Lemma translate_memory text source_lang target_lang s o s' :
  translate default_language text source_lang target_lang s = (o, s') → same_memory s s'.
Proof.
  destruct (PyStr.truthy text) eqn:Ht.
  - destruct source_lang as [l|].
    + rewrite translate_from_source, Ht. cbn [negb].
      destruct (String.eqb l target_lang); intros [= <- <-]; repeat split.
    + destruct (detect_language_never_raises text s) as (l & s1 & Hd).
      rewrite (translate_detecting _ _ _ _ _ Ht Hd), translate_from_source, Ht. cbn [negb].
      apply detect_language_memory in Hd. destruct Hd as (?&?&?).
      destruct (String.eqb l target_lang); intros [= <- <-]; repeat split; assumption.
  - unfold translate. rewrite Ht. intros [= <- <-]. repeat split.
Qed.

Lemma translate_to_english_never_raises text :
  never_raises (translate_to_english default_language text).
Proof.
  intros s. unfold translate_to_english, bind.
  destruct (detect_language_never_raises text s) as (l & s1 & ->).
  destruct (String.eqb l "en"); [unfold ret; eauto|].
  destruct (translate_never_raises text (Some l) "en" s1) as (t & s2 & ->).
  unfold ret. eauto.
Qed.

Lemma translate_to_english_memory text s o s' :
  translate_to_english default_language text s = (o, s') → same_memory s s'.
Proof.
  unfold translate_to_english, bind.
  destruct (detect_language default_language text s) as [[l|e] s1] eqn:Hd;
    apply detect_language_memory in Hd.
  - destruct (String.eqb l "en"); [intros [= <- <-]; exact Hd|].
    destruct (translate default_language text (Some l) "en" s1) as [[t|e] s2] eqn:Ht;
      apply translate_memory in Ht; intros [= <- <-]; eapply same_memory_trans; eauto.
  - intros [= <- <-]. exact Hd.
Qed.

Lemma translate_from_english_never_raises text target_lang :
  never_raises (translate_from_english default_language text target_lang).
Proof.
  intros s. unfold translate_from_english.
  destruct (String.eqb target_lang "en"); [unfold ret; eauto|].
  apply translate_never_raises.
Qed.

Lemma translate_from_english_memory text target_lang s o s' :
  translate_from_english default_language text target_lang s = (o, s') → same_memory s s'.
Proof.
  unfold translate_from_english.
  destruct (String.eqb target_lang "en"); [intros [= <- <-]; apply same_memory_refl|].
  apply translate_memory.
Qed.

End TranslatorFacts.

(** C7.  Pivot idempotence.  When the language detected for a text is
    English, [translate_to_english] returns the code "en" with the text
    unchanged, and the only call it made to the outside is the detection:
    the translation client is not called.  And [translate_from_english] with
    the target "en" returns the text unchanged, without any call. *)
Theorem pivot_idempotence `{Sv : Services} (default_language text : string) (s s1 : Chatbot) :
  detect_language default_language text s = (Returned "en", s1) →
  translate_to_english default_language text s = (Returned ("en", text), s1) ∧
  trace s1 = (trace s ++ [CallDetect text])%list ∧
  ∀ text' s', translate_from_english default_language text' "en" s' = (Returned text', s').
Proof.
  intros Hd. split; [|split].
  - unfold translate_to_english, bind. rewrite Hd. reflexivity.
  - destruct (detect_language_run default_language text s) as (l & Hrun & _).
    rewrite Hrun in Hd. injection Hd as _ <-. reflexivity.
  - reflexivity.
Qed.

Lemma pivot_idempotence_witness :
  let cfg := Demo.config 5 ["bye"] Demo.commands in
  let s := Demo.fresh (Sv := Demo.english) cfg 0%nat in
  let s1 := set_world (Sv := Demo.english) 1%nat (log_call (CallDetect "good morning") s) in
  translate_to_english "id" "good morning" s = (Returned ("en", "good morning"), s1) ∧
  calls_translation (trace s1) = false.
Proof.
  intros cfg s s1.
  destruct (pivot_idempotence (Sv := Demo.english) "id" "good morning" s s1) as (H & _ & _).
  - reflexivity.
  - split; [exact H | reflexivity].
Defined.

(** * A turn of the chatbot *)

Section ChatbotFacts.

Context `{Sv : Services}.
Variable cfg : Config.

(** The first step of a turn never raises and leaves the chatbot's memory
    alone; with translation enabled it always settles on a language. *)
Lemma to_pivot_run user_input input_language s :
  ∃ d x s', to_pivot cfg user_input input_language s = (Returned (d, x), s') ∧
            same_memory s s'.
Proof.
  unfold to_pivot.
  destruct (translation_enabled cfg && negb (lang_truthy input_language)).
  - unfold bind.
    destruct (translate_to_english_never_raises (language_default cfg) user_input s)
      as ([l t] & s' & Hrun).
    rewrite Hrun. unfold ret. simpl. do 3 eexists. split; [reflexivity|].
    eapply translate_to_english_memory; eauto.
  - unfold ret. do 3 eexists. split; [reflexivity | apply same_memory_refl].
Qed.

Lemma to_pivot_language user_input input_language s d x s' :
  translation_enabled cfg = true →
  to_pivot cfg user_input input_language s = (Returned (d, x), s') →
  ∃ l, d = Some l.
Proof.
  intros Hen. unfold to_pivot. rewrite Hen. cbn [andb].
  destruct input_language as [l|]; cbn [lang_truthy negb].
  - destruct (PyStr.truthy l); cbn [negb].
    + unfold ret. intros [= <- _ _]. eauto.
    + unfold bind.
      destruct (translate_to_english (language_default cfg) user_input s)
        as [[[l' t]|e] s1]; [|discriminate].
      unfold ret. simpl. intros [= <- _ _]. eauto.
  - unfold bind.
    destruct (translate_to_english (language_default cfg) user_input s)
        as [[[l' t]|e] s1]; [|discriminate].
    unfold ret. simpl. intros [= <- _ _]. eauto.
Qed.


Lemma from_pivot_memory response d s o s' :
  from_pivot cfg response d s = (o, s') → same_memory s s'.
Proof.
  unfold from_pivot.
  destruct (translation_enabled cfg && lang_is_not_en d);
    [|intros [= <- <-]; apply same_memory_refl].
  destruct d as [l|]; [|intros [= <- <-]; apply same_memory_refl].
  apply translate_from_english_memory.
Qed.

(** Generation touches the generation context, the world and the log only. *)
Lemma generate_response_history translated_input s o s' :
  generate_response translated_input s = (o, s') →
  builtin_handlers s' = builtin_handlers s ∧
  conversation_history s' = conversation_history s.
Proof.
  unfold generate_response, bind, lift_outcome, gets, external, modify.
  destruct (tokenizer_encode _) as [ids|e]; [|intros [= <- <-]; auto].
  cbn [world log_call].
  destruct (model_generate _ _) as [[out|e] w]; [|intros [= <- <-]; auto].
  destruct (tokenizer_decode _ _) as [r|e]; intros [= <- <-]; auto.
Qed.

Lemma converse_run user_input input_language s d x s' :
  to_pivot cfg user_input input_language s = (Returned (d, x), s') →
  converse cfg user_input input_language s
  = bind (generate_response x) (fun response => from_pivot cfg response d) (remembered cfg x s').
Proof.
  intros Hp. unfold converse. unfold bind at 1. rewrite Hp. reflexivity.
Qed.

(** Whatever happens later in the turn, the history it leaves is the old
    one with the pivot text appended, trimmed. *)
Lemma converse_history user_input input_language s d x s1 o s' :
  to_pivot cfg user_input input_language s = (Returned (d, x), s1) →
  converse cfg user_input input_language s = (o, s') →
  conversation_history s' = trim_history cfg (conversation_history s ++ [x]).
Proof.
  intros Hp. rewrite (converse_run _ _ _ _ _ _ Hp). unfold bind.
  destruct (to_pivot_run user_input input_language s) as (d' & x' & s1' & Hp' & Hmem).
  rewrite Hp in Hp'. injection Hp' as <- <- <-. destruct Hmem as (_ & Hh & _).
  destruct (generate_response x (remembered cfg x s1)) as [[response|e] s2] eqn:Hg;
    apply generate_response_history in Hg; destruct Hg as [_ Hg].
  - intros Hf. apply from_pivot_memory in Hf. destruct Hf as (_ & Hf & _).
    rewrite Hf, Hg. simpl. now rewrite Hh.
  - intros [= <- <-]. rewrite Hg. simpl. now rewrite Hh.
Qed.

Lemma process_input_command user_input input_language s text s' :
  handle_command cfg user_input s = (Returned (Some text), s') →
  PyStr.truthy text = true →
  process_input cfg user_input input_language s = (Returned text, s').
Proof.
  intros Hc Ht. unfold process_input, bind. rewrite Hc, Ht. reflexivity.
Qed.

Lemma process_input_converse user_input input_language s r s' :
  handle_command cfg user_input s = (Returned r, s') →
  falsy r = true →
  process_input cfg user_input input_language s = converse cfg user_input input_language s'.
Proof.
  intros Hc Hf. unfold process_input, bind. rewrite Hc.
  destruct r as [text|]; [|reflexivity].
  simpl in Hf. apply negb_true_iff in Hf. now rewrite Hf.
Qed.

End ChatbotFacts.

Section GenerationFacts.

Context `{Sv : Services}.


(** The model raising makes generation raise, the call logged and the
    generation context untouched. *)
Lemma generate_response_model_raises translated_input s ids e w :
  tokenizer_encode (translated_input ++ eos_token) = Returned ids →
  model_generate (bot_input (chat_history_ids s) ids) (world s) = (Raised e, w) →
  generate_response translated_input s
  = (Raised e, set_world w (log_call (CallGenerate (bot_input (chat_history_ids s) ids)) s)).
Proof.
  intros He Hg. unfold generate_response, bind, lift_outcome, gets, external.
  rewrite He. cbn [world log_call]. rewrite Hg. reflexivity.
Qed.

(** Decoding raising makes generation raise too, after the context was replaced. *)
Lemma generate_response_decode_raises translated_input s ids out w e :
  tokenizer_encode (translated_input ++ eos_token) = Returned ids →
  model_generate (bot_input (chat_history_ids s) ids) (world s) = (Returned out, w) →
  tokenizer_decode out (bot_input (chat_history_ids s) ids) = Raised e →
  fst (generate_response translated_input s) = Raised e.
Proof.
  intros He Hg Hd. unfold generate_response, bind, lift_outcome, gets, external, modify.
  rewrite He. cbn [world log_call]. rewrite Hg, Hd. reflexivity.
Qed.


End GenerationFacts.

(** C2, as stated, fails for a command whose response is the empty string:
    [handle_command] returns the handler's [""], which [process_input] tests
    for truth and takes for "not a command".  The utterance is then appended
    to the history and the model is called. *)
Lemma command_short_circuit_counterexample :
  let cfg := Demo.config 5 ["bye"] Demo.commands in
  let s := Demo.registered (Sv := Demo.english) cfg "joke" (Demo.say "") 0%nat in
  let user_input := "Please tell me a joke now" in
  let s' := snd (process_input cfg user_input None s) in
  handle_command cfg user_input s = (Returned (Some ""), s) ∧
  fst (process_input cfg user_input None s) = Returned "hi" ∧
  conversation_history s = [] ∧
  conversation_history s' = [user_input] ∧
  chat_history_ids s = None ∧
  chat_history_ids s' = Some [user_input; "hi"] ∧
  calls_generation (trace s') = true.
Proof.
  intros cfg s user_input s'. repeat split; vm_compute; reflexivity.
Qed.

(** C2, amended.  For every utterance for which [handle_command] returns a
    non-empty command response, [process_input] returns that response at
    once: the conversation history and the generation context are as they
    were before the call, and no call was made to the detection, translation
    or generation services. *)
Theorem command_short_circuit `{Sv : Services} (cfg : Config)
    (user_input : string) (input_language : option string) (s : Chatbot)
    (text : string) (s' : Chatbot) :
  handle_command cfg user_input s = (Returned (Some text), s') →
  text ≠ "" →
  process_input cfg user_input input_language s = (Returned text, s') ∧
  conversation_history s' = conversation_history s ∧
  chat_history_ids s' = chat_history_ids s ∧
  trace s' = trace s.
Proof.
  intros Hc Hne. split.
  - apply process_input_command; [exact Hc|]. destruct text; [contradiction | reflexivity].
  - apply handle_command_frame in Hc. tauto.
Qed.

Lemma command_short_circuit_witness :
  let cfg := Demo.config 5 ["bye"] Demo.commands in
  let s := Demo.registered (Sv := Demo.english) cfg "joke" (Demo.say "X") 0%nat in
  process_input cfg "Please tell me a joke now" None s = (Returned "X", s) ∧
  conversation_history s = [].
Proof.
  intros cfg s. split; [|reflexivity].
  apply (command_short_circuit cfg "Please tell me a joke now" None s "X" s).
  - vm_compute. reflexivity.
  - discriminate.
Defined.

(** C4.  For every utterance that the command check lets through, an error
    raised while the response is generated is the outcome of
    [process_input]: whatever generation raises (first part), and so what
    the model raises (second part) and what decoding its output raises
    (third part), with no reply text in its place. *)
Theorem generation_error_is_fatal `{Sv : Services} (cfg : Config)
    (user_input : string) (input_language : option string) (s : Chatbot)
    (r : option string) (s1 : Chatbot) :
  handle_command cfg user_input s = (Returned r, s1) →
  falsy r = true →
  ∃ d x s2,
    to_pivot cfg user_input input_language s1 = (Returned (d, x), s2) ∧
    (∀ e s3,
       generate_response x (remembered cfg x s2) = (Raised e, s3) →
       process_input cfg user_input input_language s = (Raised e, s3)) ∧
    (∀ ids e w,
       tokenizer_encode (x ++ eos_token) = Returned ids →
       model_generate (bot_input (chat_history_ids s2) ids) (world s2) = (Raised e, w) →
       fst (process_input cfg user_input input_language s) = Raised e) ∧
    (∀ ids out w e,
       tokenizer_encode (x ++ eos_token) = Returned ids →
       model_generate (bot_input (chat_history_ids s2) ids) (world s2) = (Returned out, w) →
       tokenizer_decode out (bot_input (chat_history_ids s2) ids) = Raised e →
       fst (process_input cfg user_input input_language s) = Raised e).
Proof.
  intros Hc Hf.
  destruct (to_pivot_run cfg user_input input_language s1) as (d & x & s2 & Hp & _).
  exists d, x, s2. split; [exact Hp|].
  assert (Hfatal : ∀ e s3,
             generate_response x (remembered cfg x s2) = (Raised e, s3) →
             process_input cfg user_input input_language s = (Raised e, s3)).
  { intros e s3 Hg.
    rewrite (process_input_converse cfg _ _ _ _ _ Hc Hf), (converse_run cfg _ _ _ _ _ _ Hp).
    unfold bind. now rewrite Hg. }
  split; [exact Hfatal|]. split.
  - intros ids e w He Hg.
    erewrite Hfatal; [reflexivity|].
    apply generate_response_model_raises; [exact He | exact Hg].
  - intros ids out w e He Hg Hd.
    pose proof (generate_response_decode_raises x (remembered cfg x s2) ids out w e He Hg Hd)
      as Hraise.
    destruct (generate_response x (remembered cfg x s2)) as [o s3] eqn:Hrun.
    simpl in Hraise. subst o. now rewrite (Hfatal e s3).
Qed.

Lemma generation_error_is_fatal_witness :
  let cfg := Demo.config 5 ["bye"] Demo.commands in
  let s := Demo.fresh (Sv := Demo.model_down) cfg 0%nat in
  fst (process_input cfg "hello there" None s) = Raised "CUDA out of memory".
Proof.
  intros cfg s.
  destruct (generation_error_is_fatal (Sv := Demo.model_down) cfg "hello there" None s None s)
    as (d & x & s2 & Hp & _ & Hmodel & _); [reflexivity | reflexivity |].
  vm_compute in Hp. injection Hp as <- <- <-.
  apply (Hmodel ["hello there"] "CUDA out of memory" 2%nat); reflexivity.
Defined.

(** C5, as stated, fails when detection raises but the translation client
    works and the default language is not English: [detect_language] answers
    the default code, and the text is then translated from that language,
    so what comes back is the translation, not the original text. *)
Lemma degrade_on_failure_counterexample :
  let cfg := Demo.config 5 ["bye"] Demo.commands in
  let s := Demo.fresh (Sv := Demo.detect_down) cfg 0%nat in
  fst (langdetect_detect "bonjour" (world s)) = Raised "LangDetectException" ∧
  fst (detect_language "fr" "bonjour" s) = Returned "fr" ∧
  fst (translate "fr" "bonjour" None "en" s) = Returned "hello" ∧
  fst (translate_to_english "fr" "bonjour" s) = Returned ("fr", "hello").
Proof.
  intros cfg s. repeat split; vm_compute; reflexivity.
Qed.

(** C5, amended.  No method of the translator lets an error out.  When
    language detection raises, [detect_language] returns the default
    language code, and [translate_to_english] goes on with that code as the
    source: the text comes back unchanged when the default code is "en" or
    when the translation call raises as well.  When the external translation
    call raises, [translate] returns the original text unchanged, whether the
    source language was given or detected.  So a turn whose reply cannot be
    translated back returns the reply as the model gave it. *)
Theorem degrade_on_failure `{Sv : Services} (cfg : Config) :
  let default := language_default cfg in
  (∀ text, never_raises (detect_language default text)) ∧
  (∀ text source_lang target_lang,
     never_raises (translate default text source_lang target_lang)) ∧
  (∀ text, never_raises (translate_to_english default text)) ∧
  (∀ text target_lang, never_raises (translate_from_english default text target_lang)) ∧
  (∀ text s e w,
     langdetect_detect text (world s) = (Raised e, w) →
     fst (detect_language default text s) = Returned default ∧
     ∃ t, fst (translate_to_english default text s) = Returned (default, t) ∧
          (default = "en" ∨ (∃ e' w', googletrans_translate text default "en" w = (Raised e', w'))
           → t = text)) ∧
  (∀ text source_lang target_lang s e w,
     googletrans_translate text source_lang target_lang (world s) = (Raised e, w) →
     fst (translate default text (Some source_lang) target_lang s) = Returned text) ∧
  (∀ text target_lang s l s1 e w,
     detect_language default text s = (Returned l, s1) →
     googletrans_translate text l target_lang (world s1) = (Raised e, w) →
     fst (translate default text None target_lang s) = Returned text) ∧
  (∀ user_input input_language s r s1 d x s2 response s3,
     handle_command cfg user_input s = (Returned r, s1) →
     falsy r = true →
     to_pivot cfg user_input input_language s1 = (Returned (d, x), s2) →
     generate_response x (remembered cfg x s2) = (Returned response, s3) →
     (∀ l, d = Some l →
        ∃ e w, googletrans_translate response "en" l (world s3) = (Raised e, w)) →
     fst (process_input cfg user_input input_language s) = Returned response).
Proof.
  intros default.
  assert (Hgiven : ∀ text source_lang target_lang s e w,
             googletrans_translate text source_lang target_lang (world s) = (Raised e, w) →
             fst (translate default text (Some source_lang) target_lang s) = Returned text).
  { intros text source_lang target_lang s e w Hraise.
    rewrite translate_from_source.
    destruct (PyStr.truthy text) eqn:Ht; cbn [negb].
    - destruct (String.eqb source_lang target_lang); [reflexivity|].
      cbn [fst]. now rewrite Hraise.
    - apply PyStrFacts.truthy_false in Ht. now subst text. }
  split; [intros; apply detect_language_never_raises|].
  split; [intros; apply translate_never_raises|].
  split; [intros; apply translate_to_english_never_raises|].
  split; [intros; apply translate_from_english_never_raises|].
  split; [|split; [exact Hgiven|split]].
  - intros text s e w Hraise.
    destruct (detect_language_run default text s) as (l & Hrun & Hl).
    rewrite Hraise in Hrun, Hl. cbn [fst snd] in Hrun, Hl. subst l.
    split; [now rewrite Hrun|].
    unfold translate_to_english, bind. rewrite Hrun.
    destruct (String.eqb_spec default "en") as [Hen|Hen].
    + exists text. split; [reflexivity | tauto].
    + destruct (translate_never_raises default text (Some default) "en"
                  (set_world w (log_call (CallDetect text) s))) as (t & s2 & Ht).
      rewrite Ht. exists t. split; [reflexivity|].
      intros [Heq | (e' & w' & Hraise')]; [contradiction|].
      pose proof (Hgiven text default "en" (set_world w (log_call (CallDetect text) s)) e' w'
                    Hraise') as Hsame.
      rewrite Ht in Hsame. cbn [fst] in Hsame. congruence.
  - intros text target_lang s l s1 e w Hd Hraise.
    destruct (PyStr.truthy text) eqn:Ht.
    + rewrite (translate_detecting default _ _ _ _ _ Ht Hd). now apply (Hgiven _ _ _ _ e w).
    + unfold translate. rewrite Ht. apply PyStrFacts.truthy_false in Ht. now subst text.
  - intros user_input input_language s r s1 d x s2 response s3 Hc Hf Hp Hg Hdown.
    rewrite (process_input_converse cfg _ _ _ _ _ Hc Hf), (converse_run cfg _ _ _ _ _ _ Hp).
    unfold bind. rewrite Hg. unfold from_pivot.
    destruct (translation_enabled cfg && lang_is_not_en d); [|reflexivity].
    destruct d as [l|]; [|reflexivity].
    destruct (Hdown l eq_refl) as (e & w & Hraise).
    unfold translate_from_english. destruct (String.eqb l "en"); [reflexivity|].
    now apply (Hgiven _ _ _ _ e w).
Qed.

Lemma degrade_on_failure_witness :
  let cfg := Demo.config 5 ["bye"] Demo.commands in
  let s := Demo.fresh (Sv := Demo.translate_down) cfg 0%nat in
  fst (translate "en" "bonjour" (Some "fr") "en" s) = Returned "bonjour" ∧
  fst (process_input cfg "bonjour" None s) = Returned "hi".
Proof.
  intros cfg s.
  destruct (degrade_on_failure (Sv := Demo.translate_down) cfg)
    as (_ & _ & _ & _ & _ & Hgiven & _ & Hturn).
  split.
  - apply (Hgiven "bonjour" "fr" "en" s "ConnectError" 1%nat). reflexivity.
  - apply (Hturn "bonjour" None s None s (Some "fr") "bonjour"
             (set_world (Sv := Demo.translate_down) 2%nat
                (log_call (CallTranslate "bonjour" "fr" "en") (log_call (CallDetect "bonjour") s)))
             "hi"
             (snd (generate_response (Sv := Demo.translate_down) "bonjour"
                     (remembered cfg "bonjour"
                        (set_world (Sv := Demo.translate_down) 2%nat
                           (log_call (CallTranslate "bonjour" "fr" "en")
                              (log_call (CallDetect "bonjour") s))))))).
    + reflexivity.
    + reflexivity.
    + reflexivity.
    + reflexivity.
    + intros l [= <-]. exists "ConnectError", 4%nat. reflexivity.
Defined.

(** * The history window *)

Section HistoryFacts.

Context `{Sv : Services}.
Variable cfg : Config.

Lemma last_items_length {A : Type} (n : nat) (l : list A) :
  length (last_items n l) = Nat.min (length l) n.
Proof. unfold last_items. rewrite length_drop. lia. Qed.

(** Taking the last [n] items commutes with an append, as long as [n] is
    not zero. *)
Lemma last_items_snoc {A : Type} (n : nat) (l : list A) (x : A) :
  (1 ≤ n)%nat → last_items n (last_items n l ++ [x]) = last_items n (l ++ [x]).
Proof.
  intros Hn. unfold last_items.
  rewrite !length_app, length_drop. cbn [length].
  destruct (Nat.le_gt_cases (length l) n) as [Hle|Hgt].
  - replace (length l - n) with 0 by lia. rewrite drop_0, Nat.sub_0_r. reflexivity.
  - replace (length l - (length l - n) + 1 - n) with 1 by lia.
    replace (length l + 1 - n) with (S (length l - n)) by lia.
    rewrite (drop_app_le l [x] (S (length l - n))) by lia.
    rewrite drop_app_le by (rewrite length_drop; lia).
    rewrite drop_drop. now replace (length l - n + 1) with (S (length l - n)) by lia.
Qed.

(** With a bound of at least one, lines 92-93 keep the last [max_history] items. *)
Lemma trim_history_positive (l : list string) :
  (1 ≤ max_history cfg)%Z →
  trim_history cfg l = last_items (Z.to_nat (max_history cfg)) l.
Proof.
  intros Hk. unfold trim_history, PyList.slice_from, last_items.
  destruct (Z.ltb_spec (max_history cfg) (Z.of_nat (length l))) as [Hlt|Hge].
  - destruct (Z.ltb_spec (- max_history cfg) 0) as [_|Hneg]; [|lia].
    f_equal. lia.
  - replace (length l - Z.to_nat (max_history cfg)) with 0 by lia. now rewrite drop_0.
Qed.

(** With a bound of zero the slice is [l[-0:]], which is all of [l]. *)
Lemma trim_history_zero (l : list string) :
  max_history cfg = 0%Z → trim_history cfg l = l.
Proof.
  intros Hk. unfold trim_history, PyList.slice_from. rewrite Hk. simpl.
  destruct (0 <? Z.of_nat (length l))%Z; reflexivity.
Qed.

Lemma window_snoc (h xs : list string) (x : string) :
  window cfg h (xs ++ [x]) = trim_history cfg (window cfg h xs ++ [x]).
Proof. unfold window. now rewrite fold_left_app. Qed.

Lemma window_positive (xs : list string) :
  (1 ≤ max_history cfg)%Z →
  window cfg [] xs = last_items (Z.to_nat (max_history cfg)) xs.
Proof.
  intros Hk. induction xs as [|x xs IH] using rev_ind; [reflexivity|].
  rewrite window_snoc, IH, trim_history_positive by assumption.
  apply last_items_snoc. lia.
Qed.

Lemma window_zero (h xs : list string) :
  max_history cfg = 0%Z → window cfg h xs = (h ++ xs)%list.
Proof.
  intros Hk. induction xs as [|x xs IH] using rev_ind.
  - now rewrite app_nil_r.
  - rewrite window_snoc, IH, trim_history_zero by assumption. now rewrite app_assoc.
Qed.

(** After a run of turns the history is the window of what they appended. *)
Lemma turns_history (s s' : Chatbot) (xs : list string) :
  turns cfg s xs s' → conversation_history s' = window cfg (conversation_history s) xs.
Proof.
  induction 1 as [s | s xs s1 u lang r s2 d x s3 o s4 _ IH Hc Hf Hp Hrun]; [reflexivity|].
  rewrite window_snoc, <- IH.
  rewrite (process_input_converse cfg _ _ _ _ _ Hc Hf) in Hrun.
  rewrite (converse_history cfg _ _ _ _ _ _ _ _ Hp Hrun).
  apply handle_command_frame in Hc. destruct Hc as (_ & -> & _). reflexivity.
Qed.

(** The history bound, for a bound of at least one: after [N] turns that are
    not commands, a chatbot that started with an empty history holds the last
    [min N max_history] pivot texts, oldest first. *)
Lemma history_bound_positive (s s' : Chatbot) (xs : list string) :
  (1 ≤ max_history cfg)%Z →
  conversation_history s = [] →
  turns cfg s xs s' →
  conversation_history s' = last_items (Z.to_nat (max_history cfg)) xs ∧
  Z.of_nat (length (conversation_history s')) = Z.min (Z.of_nat (length xs)) (max_history cfg).
Proof.
  intros Hk Hempty Hturns. apply turns_history in Hturns.
  rewrite Hempty, window_positive in Hturns by assumption.
  rewrite Hturns, last_items_length. split; [reflexivity | lia].
Qed.

(** With a bound of zero nothing is ever dropped. *)
Lemma history_unbounded_at_zero (s s' : Chatbot) (xs : list string) :
  max_history cfg = 0%Z →
  conversation_history s = [] →
  turns cfg s xs s' →
  conversation_history s' = xs.
Proof.
  intros Hk Hempty Hturns. apply turns_history in Hturns.
  now rewrite Hempty, window_zero in Hturns.
Qed.

End HistoryFacts.

(** C1.  The history bound holds for every [max_history] of at least one
    ([history_bound_positive]) and fails for zero: [l[-0:]] is the whole
    list, so nothing is dropped.  With [max_history = 0], after the two
    turns "hello" and "how are you", neither of them a command, the history
    holds both utterances, where the bound asks for [min 2 0 = 0] of them. *)
Theorem history_bound_fails_at_zero :
  let cfg := Demo.config 0 ["bye"] Demo.commands in
  let s0 := Demo.fresh (Sv := Demo.english) cfg 0%nat in
  let s1 := snd (process_input cfg "hello" None s0) in
  let s2 := snd (process_input cfg "how are you" None s1) in
  fst (handle_command cfg "hello" s0) = Returned None ∧
  fst (handle_command cfg "how are you" s1) = Returned None ∧
  turns cfg s0 ["hello"; "how are you"] s2 ∧
  conversation_history s2 = ["hello"; "how are you"] ∧
  Z.of_nat (length (conversation_history s2)) ≠ Z.min 2 (max_history cfg).
Proof.
  intros cfg s0 s1 s2.
  assert (Hturns : turns cfg s0 ["hello"; "how are you"] s2).
  { apply (turns_snoc cfg s0 ["hello"] s1 "how are you" None None s1 (Some "en") "how are you"
             (snd (to_pivot cfg "how are you" None s1))
             (fst (process_input cfg "how are you" None s1)) s2).
    - apply (turns_snoc cfg s0 [] s0 "hello" None None s0 (Some "en") "hello"
               (snd (to_pivot cfg "hello" None s0))
               (fst (process_input cfg "hello" None s0)) s1).
      + constructor.
      + reflexivity.
      + reflexivity.
      + reflexivity.
      + reflexivity.
    - reflexivity.
    - reflexivity.
    - reflexivity.
    - reflexivity. }
  split; [reflexivity|]. split; [reflexivity|]. split; [exact Hturns|].
  split; [reflexivity|]. vm_compute. discriminate.
Qed.

(** The scenario of the specification: with [max_history = 2], the turns
    "hello", "how are you", "what is your name" leave the last two. *)
Example history_window_of_two :
  let cfg := Demo.config 2 ["bye"; "goodbye"] Demo.commands in
  let s0 := Demo.fresh (Sv := Demo.english) cfg 0%nat in
  let s1 := snd (process_input cfg "hello" None s0) in
  let s2 := snd (process_input cfg "how are you" None s1) in
  let s3 := snd (process_input cfg "what is your name" None s2) in
  conversation_history s3 = ["how are you"; "what is your name"].
Proof. reflexivity. Qed.

(** The exit scenario: "goodbye" gets the farewell and the state is unchanged. *)
Example goodbye_turn :
  let cfg := Demo.config 2 ["bye"; "goodbye"] Demo.commands in
  let s0 := Demo.fresh (Sv := Demo.english) cfg 0%nat in
  process_input cfg "goodbye" None s0 = (Returned "Goodbye!", s0).
Proof. reflexivity. Qed.

(** * What the history is not used for *)

Section BlindFacts.

Context `{Sv : Services}.

Lemma same_but_history_refl s : same_but_history s s.
Proof. repeat split. Qed.

Lemma same_but_history_set h h' s s' :
  same_but_history s s' → same_but_history (set_history h s) (set_history h' s').
Proof. intros (?&?&?&?). repeat split; assumption. Qed.

Lemma agree_ret {A} (a : A) : agree (ret a) (ret a).
Proof. intros s s' H. split; [reflexivity | exact H]. Qed.

Lemma agree_bind {A B} (m m' : M A) (k k' : A → M B) :
  agree m m' → (∀ a, agree (k a) (k' a)) → agree (bind m k) (bind m' k').
Proof.
  intros Hm Hk s s' H. unfold bind. destruct (Hm s s' H) as [Ho Hs].
  destruct (m s) as [[a|e] t], (m' s') as [[a'|e'] t']; simpl in Ho, Hs; try discriminate.
  - injection Ho as <-. now apply Hk.
  - injection Ho as <-. split; [reflexivity | exact Hs].
Qed.

Lemma agree_try_except {A} (m m' : M A) (h h' : exn → M A) :
  agree m m' → (∀ e, agree (h e) (h' e)) → agree (try_except m h) (try_except m' h').
Proof.
  intros Hm Hh s s' H. unfold try_except. destruct (Hm s s' H) as [Ho Hs].
  destruct (m s) as [[a|e] t], (m' s') as [[a'|e'] t']; simpl in Ho, Hs; try discriminate.
  - injection Ho as <-. split; [reflexivity | exact Hs].
  - injection Ho as <-. now apply Hh.
Qed.

Lemma agree_external {A} (c : option Call) (f : World → outcome A * World) :
  agree (external c f) (external c f).
Proof.
  intros s s' (Hh & Hi & Hw & Ht). unfold external.
  destruct c as [c|]; cbn [world log_call]; rewrite Hw;
    destruct (f (world s')) as [r w]; repeat split; simpl; congruence.
Qed.

Lemma agree_lift {A} (o : outcome A) : agree (lift_outcome o) (lift_outcome o).
Proof. intros s s' H. split; [reflexivity | exact H]. Qed.

Lemma agree_if {A} (b : bool) (m1 m1' m2 m2' : M A) :
  agree m1 m1' → agree m2 m2' → agree (if b then m1 else m2) (if b then m1' else m2').
Proof. now destruct b. Qed.

Variable cfg : Config.

Lemma agree_handle_command k user_input :
  agree (handle_command cfg user_input) (handle_command (set_max_history k cfg) user_input).
Proof.
  unfold handle_command. cbn [set_max_history exit_commands custom_commands].
  apply agree_if; [apply agree_ret|]. apply agree_if; [apply agree_ret|].
  intros s s' H. unfold bind, gets. cbn [fst snd]. destruct H as (Hh & Hrest).
  rewrite Hh. assert (H' : same_but_history s s') by (split; assumption).
  destruct (scan_commands _ _ _) as [[ct h]|]; [|now apply agree_ret].
  unfold invoke. apply agree_bind; [apply agree_external | intros; apply agree_ret | exact H'].
Qed.

Lemma agree_detect_language default text :
  agree (detect_language default text) (detect_language default text).
Proof. apply agree_try_except; [apply agree_external | intros; apply agree_ret]. Qed.

Lemma agree_translate default text source_lang target_lang :
  agree (translate default text source_lang target_lang)
        (translate default text source_lang target_lang).
Proof.
  unfold translate. apply agree_if; [apply agree_ret|].
  apply agree_try_except; [|intros; apply agree_ret].
  apply agree_bind.
  - destruct source_lang; [apply agree_ret | apply agree_detect_language].
  - intros l. apply agree_if; [apply agree_ret | apply agree_external].
Qed.

Lemma agree_to_pivot k user_input input_language :
  agree (to_pivot cfg user_input input_language)
        (to_pivot (set_max_history k cfg) user_input input_language).
Proof.
  unfold to_pivot. cbn [set_max_history translation_enabled language_default].
  apply agree_if; [|apply agree_ret].
  apply agree_bind; [|intros; apply agree_ret].
  unfold translate_to_english. apply agree_bind; [apply agree_detect_language|].
  intros l. apply agree_if; [apply agree_ret|].
  apply agree_bind; [apply agree_translate | intros; apply agree_ret].
Qed.

Lemma agree_remember k x : agree (remember cfg x) (remember (set_max_history k cfg) x).
Proof.
  intros s s' H. unfold remember, modify. cbn [fst snd].
  split; [reflexivity | now apply same_but_history_set].
Qed.

Lemma agree_generate_response x : agree (generate_response x) (generate_response x).
Proof.
  unfold generate_response. apply agree_bind; [apply agree_lift|]. intros ids.
  apply agree_bind.
  { intros s s' H. unfold gets. cbn [fst snd]. split; [|exact H].
    destruct H as (_ & -> & _). reflexivity. }
  intros history_ids.
  apply agree_bind; [apply agree_external|]. intros out.
  apply agree_bind; [|intros; apply agree_lift].
  intros s s' (?&?&?&?). unfold modify. repeat split; assumption.
Qed.

Lemma agree_from_pivot k response d :
  agree (from_pivot cfg response d) (from_pivot (set_max_history k cfg) response d).
Proof.
  unfold from_pivot. cbn [set_max_history translation_enabled language_default].
  apply agree_if; [|apply agree_ret]. destruct d as [l|]; [|apply agree_ret].
  unfold translate_from_english. apply agree_if; [apply agree_ret | apply agree_translate].
Qed.

Lemma agree_converse k user_input input_language :
  agree (converse cfg user_input input_language)
        (converse (set_max_history k cfg) user_input input_language).
Proof.
  unfold converse. apply agree_bind; [apply agree_to_pivot|]. intros r.
  apply agree_bind; [apply agree_remember|]. intros _.
  apply agree_bind; [apply agree_generate_response|]. intros response.
  apply agree_from_pivot.
Qed.

Lemma agree_process_input k user_input input_language :
  agree (process_input cfg user_input input_language)
        (process_input (set_max_history k cfg) user_input input_language).
Proof.
  unfold process_input. apply agree_bind; [apply agree_handle_command|].
  intros [text|]; [|apply agree_converse].
  apply agree_if; [apply agree_ret | apply agree_converse].
Qed.

End BlindFacts.

(** X1.  The history window plays no part in the answer.  Whatever the
    bound [max_history] is set to and whatever [conversation_history] holds,
    [process_input] returns the same result and leaves the same handler
    table, generation context, outside world and log of service calls: the
    model is fed from [chat_history_ids], which is never read from the
    history and never trimmed. *)
Theorem history_window_is_unused `{Sv : Services} (cfg : Config) (k : Z)
    (history : list string) (user_input : string) (input_language : option string)
    (s : Chatbot) :
  let r := process_input cfg user_input input_language s in
  let r' := process_input (set_max_history k cfg) user_input input_language
              (set_history history s) in
  fst r' = fst r ∧
  builtin_handlers (snd r') = builtin_handlers (snd r) ∧
  chat_history_ids (snd r') = chat_history_ids (snd r) ∧
  world (snd r') = world (snd r) ∧
  trace (snd r') = trace (snd r).
Proof.
  intros r r'.
  destruct (agree_process_input cfg k user_input input_language s (set_history history s))
    as (Ho & Hh & Hi & Hw & Ht); [repeat split|].
  subst r r'. repeat split; congruence.
Qed.

(** * Which services a turn calls *)

Section CallsFacts.

Context `{Sv : Services}.

Lemma new_calls_app (s s' : Chatbot) (l : list Call) :
  trace s' = (trace s ++ l)%list → new_calls s s' = l.
Proof. intros H. unfold new_calls. rewrite H. apply drop_app_length. Qed.

Lemma calls_only_ret {A} P (a : A) : calls_only P (ret a).
Proof. intros s. exists []. now rewrite app_nil_r. Qed.

Lemma calls_only_lift {A} P (o : outcome A) : calls_only P (lift_outcome o).
Proof. intros s. exists []. now rewrite app_nil_r. Qed.

Lemma calls_only_gets {A} P (f : Chatbot → A) : calls_only P (gets f).
Proof. intros s. exists []. now rewrite app_nil_r. Qed.

Lemma calls_only_modify P (f : Chatbot → Chatbot) :
  (∀ s, trace (f s) = trace s) → calls_only P (modify f).
Proof. intros Hf s. exists []. simpl. now rewrite Hf, app_nil_r. Qed.

Lemma calls_only_bind {A B} P (m : M A) (k : A → M B) :
  calls_only P m → (∀ a, calls_only P (k a)) → calls_only P (bind m k).
Proof.
  intros Hm Hk s. unfold bind. destruct (Hm s) as (l & Hl & HP).
  destruct (m s) as [[a|e] t]; simpl in Hl.
  - destruct (Hk a t) as (l' & Hl' & HP'). exists (l ++ l')%list.
    rewrite Hl', Hl, app_assoc, forallb_app, HP, HP'. now split.
  - exists l. now split.
Qed.

Lemma calls_only_try_except {A} P (m : M A) (h : exn → M A) :
  calls_only P m → (∀ e, calls_only P (h e)) → calls_only P (try_except m h).
Proof.
  intros Hm Hh s. unfold try_except. destruct (Hm s) as (l & Hl & HP).
  destruct (m s) as [[a|e] t]; simpl in Hl.
  - exists l. now split.
  - destruct (Hh e t) as (l' & Hl' & HP'). exists (l ++ l')%list.
    rewrite Hl', Hl, app_assoc, forallb_app, HP, HP'. now split.
Qed.

Lemma calls_only_external {A} P (c : option Call) (f : World → outcome A * World) :
  match c with Some c => P c = true | None => True end → calls_only P (external c f).
Proof.
  intros Hc s. unfold external. destruct c as [c|]; cbn [world log_call].
  - destruct (f (world s)) as [r w]. exists [c]. simpl. now rewrite Hc.
  - destruct (f (world s)) as [r w]. exists []. simpl. now rewrite app_nil_r.
Qed.

Lemma calls_only_if {A} P (b : bool) (m1 m2 : M A) :
  calls_only P m1 → calls_only P m2 → calls_only P (if b then m1 else m2).
Proof. now destruct b. Qed.

Variable cfg : Config.

Lemma calls_only_handle_command P user_input : calls_only P (handle_command cfg user_input).
Proof.
  unfold handle_command. apply calls_only_if; [apply calls_only_ret|].
  apply calls_only_if; [apply calls_only_ret|].
  apply calls_only_bind; [apply calls_only_gets|]. intros handlers.
  destruct (scan_commands _ _ _) as [[ct h]|]; [|apply calls_only_ret].
  apply calls_only_bind; [now apply calls_only_external | intros; apply calls_only_ret].
Qed.

Lemma calls_only_generate_response P x :
  (∀ t, P (CallGenerate t) = true) → calls_only P (generate_response x).
Proof.
  intros HP. unfold generate_response.
  apply calls_only_bind; [apply calls_only_lift|]. intros ids.
  apply calls_only_bind; [apply calls_only_gets|]. intros history_ids.
  apply calls_only_bind; [apply calls_only_external, HP|]. intros out.
  apply calls_only_bind; [now apply calls_only_modify | intros; apply calls_only_lift].
Qed.

Lemma calls_only_remember P x : calls_only P (remember cfg x).
Proof. now apply calls_only_modify. Qed.

Lemma calls_only_translate_from P default text source_lang target_lang :
  P (CallTranslate text source_lang target_lang) = true →
  calls_only P (translate default text (Some source_lang) target_lang).
Proof.
  intros HP s. rewrite translate_from_source.
  destruct (negb (PyStr.truthy text)); [exists []; now rewrite app_nil_r|].
  destruct (String.eqb source_lang target_lang); [exists []; now rewrite app_nil_r|].
  exists [CallTranslate text source_lang target_lang]. simpl. now rewrite HP.
Qed.

(** Translating a reply out of English: at most the one call. *)
Lemma calls_only_from_pivot P response d :
  (∀ l, d = Some l → l ≠ "en" → P (CallTranslate response "en" l) = true) →
  calls_only P (from_pivot cfg response d).
Proof.
  intros HP. unfold from_pivot. apply calls_only_if; [|apply calls_only_ret].
  destruct d as [l|]; [|apply calls_only_ret].
  unfold translate_from_english.
  destruct (String.eqb_spec l "en") as [Hen|Hen]; [apply calls_only_ret|].
  apply calls_only_translate_from. now apply HP.
Qed.

End CallsFacts.

Section TurnCalls.

Context `{Sv : Services}.
Variable cfg : Config.

Lemma forallb_negb_existsb {A} (P : A → bool) (l : list A) :
  forallb (fun c => negb (P c)) l = true → existsb P l = false.
Proof.
  induction l as [|a l IH]; simpl; [reflexivity|].
  intros H. apply andb_true_iff in H as [Ha Hl]. apply negb_true_iff in Ha.
  now rewrite Ha, IH.
Qed.

(** With the language given, lines 84-88 do nothing. *)
Lemma to_pivot_known user_input l :
  l ≠ "" → to_pivot cfg user_input (Some l) = ret (Some l, user_input).
Proof.
  intros Hl. unfold to_pivot. cbn [lang_truthy].
  destruct l; [contradiction|]. cbn [PyStr.truthy negb]. now rewrite andb_false_r.
Qed.

(** With translation disabled, lines 84-88 and 125-126 do nothing. *)
Lemma to_pivot_disabled user_input input_language :
  translation_enabled cfg = false →
  to_pivot cfg user_input input_language = ret (input_language, user_input).
Proof. intros H. unfold to_pivot. now rewrite H. Qed.

Lemma from_pivot_disabled response d :
  translation_enabled cfg = false → from_pivot cfg response d = ret response.
Proof. intros H. unfold from_pivot. now rewrite H. Qed.

Lemma bind_ret {A B} (a : A) (k : A → M B) : bind (ret a) k = k a.
Proof. reflexivity. Qed.

Lemma calls_only_converse_known P user_input l :
  l ≠ "" →
  (∀ t, P (CallGenerate t) = true) →
  (∀ response, l ≠ "en" → P (CallTranslate response "en" l) = true) →
  calls_only P (converse cfg user_input (Some l)).
Proof.
  intros Hl Hgen Hback. unfold converse. rewrite (to_pivot_known _ _ Hl), bind_ret.
  cbn [fst snd]. apply calls_only_bind; [apply calls_only_remember|]. intros _.
  apply calls_only_bind; [now apply calls_only_generate_response|]. intros response.
  apply calls_only_from_pivot. intros l' [= <-] Hen. now apply Hback.
Qed.

Lemma calls_only_converse_disabled user_input input_language :
  translation_enabled cfg = false →
  calls_only is_generate (converse cfg user_input input_language).
Proof.
  intros Hoff. unfold converse. rewrite (to_pivot_disabled _ _ Hoff), bind_ret.
  cbn [fst snd]. apply calls_only_bind; [apply calls_only_remember|]. intros _.
  apply calls_only_bind; [now apply calls_only_generate_response|]. intros response.
  rewrite (from_pivot_disabled _ _ Hoff). apply calls_only_ret.
Qed.

Lemma calls_only_process_input P user_input input_language :
  calls_only P (converse cfg user_input input_language) →
  calls_only P (process_input cfg user_input input_language).
Proof.
  intros Hconv. unfold process_input.
  apply calls_only_bind; [apply calls_only_handle_command|].
  intros [text|]; [|exact Hconv]. apply calls_only_if; [apply calls_only_ret | exact Hconv].
Qed.

End TurnCalls.

(** X2.  A turn in which the model raises is not rolled back: the utterance
    (in the pivot language) stays appended to the history, while the
    generation context is the one from before the turn. *)
Theorem failed_generation_keeps_the_utterance `{Sv : Services} (cfg : Config)
    (user_input : string) (input_language : option string) (s s1 s2 : Chatbot)
    (r d : option string) (x : string) (ids : Tensor) (e : exn) (w : World) :
  handle_command cfg user_input s = (Returned r, s1) →
  falsy r = true →
  to_pivot cfg user_input input_language s1 = (Returned (d, x), s2) →
  tokenizer_encode (x ++ eos_token) = Returned ids →
  model_generate (bot_input (chat_history_ids s) ids) (world s2) = (Raised e, w) →
  let s' := snd (process_input cfg user_input input_language s) in
  fst (process_input cfg user_input input_language s) = Raised e ∧
  conversation_history s' = trim_history cfg (conversation_history s ++ [x]) ∧
  chat_history_ids s' = chat_history_ids s.
Proof.
  intros Hc Hf Hp He Hg s'. subst s'.
  pose proof (handle_command_frame cfg _ _ _ _ Hc) as (_ & Hh1 & Hi1 & _).
  destruct (to_pivot_run cfg user_input input_language s1) as (d' & x' & s2' & Hp' & Hmem).
  rewrite Hp in Hp'. injection Hp' as <- <- <-. destruct Hmem as (_ & Hh2 & Hi2).
  rewrite (process_input_converse cfg _ _ _ _ _ Hc Hf), (converse_run cfg _ _ _ _ _ _ Hp).
  unfold bind.
  rewrite (generate_response_model_raises x (remembered cfg x s2) ids e w He).
  - simpl. rewrite Hh2, Hh1, Hi2, Hi1. auto.
  - simpl. rewrite Hi2, Hi1. exact Hg.
Qed.

Lemma failed_generation_keeps_the_utterance_witness :
  let cfg := Demo.config 5 ["bye"] Demo.commands in
  let s := Demo.fresh (Sv := Demo.model_down) cfg 0%nat in
  let s' := snd (process_input cfg "hello there" None s) in
  conversation_history s' = ["hello there"] ∧ chat_history_ids s' = None.
Proof.
  intros cfg s s'.
  destruct (failed_generation_keeps_the_utterance (Sv := Demo.model_down) cfg "hello there"
              None s s (set_world (Sv := Demo.model_down) 1%nat
                          (log_call (CallDetect "hello there") s))
              None (Some "en") "hello there" ["hello there"] "CUDA out of memory" 2%nat)
    as (_ & Hh & Hi); try reflexivity.
  split; [exact Hh | exact Hi].
Defined.

(** X3.  When the caller gives the language of the utterance (a non-empty
    code, as the voice loop does), [process_input] makes no language
    detection and no translation into English: the utterance is appended to
    the history as it is, whatever its language.  The only translation a
    turn can make is of the reply, out of English. *)
Theorem known_language_skips_detection `{Sv : Services} (cfg : Config)
    (user_input l : string) (s : Chatbot) :
  l ≠ "" →
  let s' := snd (process_input cfg user_input (Some l) s) in
  existsb about_input (new_calls s s') = false ∧
  ∀ r s1, handle_command cfg user_input s = (Returned r, s1) → falsy r = true →
          conversation_history s' = trim_history cfg (conversation_history s ++ [user_input]).
Proof.
  intros Hl s'. subst s'. split.
  - destruct (calls_only_process_input cfg (fun c => negb (about_input c)) user_input (Some l))
      with (s := s) as (calls & Hcalls & HP).
    + apply calls_only_converse_known; [exact Hl | reflexivity |].
      intros response Hen. simpl. apply negb_true_iff. now apply String.eqb_neq.
    + rewrite (new_calls_app _ _ _ Hcalls). now apply forallb_negb_existsb.
  - intros r s1 Hc Hf.
    rewrite (process_input_converse cfg _ _ _ _ _ Hc Hf).
    destruct (converse cfg user_input (Some l) s1) as [o s4] eqn:Hconv. cbn [snd].
    assert (Hp : to_pivot cfg user_input (Some l) s1 = (Returned (Some l, user_input), s1))
      by now rewrite to_pivot_known.
    rewrite (converse_history cfg _ _ _ _ _ _ _ _ Hp Hconv).
    apply handle_command_frame in Hc. destruct Hc as (_ & -> & _). reflexivity.
Qed.

Lemma known_language_skips_detection_witness :
  let cfg := Demo.config 5 ["bye"] Demo.commands in
  let s := Demo.fresh (Sv := Demo.translate_down) cfg 0%nat in
  let s' := snd (process_input cfg "selamat pagi" (Some "id") s) in
  existsb about_input (new_calls s s') = false ∧
  conversation_history s' = ["selamat pagi"].
Proof.
  intros cfg s s'.
  destruct (known_language_skips_detection (Sv := Demo.translate_down) cfg "selamat pagi" "id" s)
    as (Hcalls & Hh); [discriminate|].
  split; [exact Hcalls|]. apply (Hh None s); reflexivity.
Defined.

(** X4.  With translation disabled in the configuration, a turn never calls
    the language detection or the translation client, whatever the utterance
    and the language given: the only service it can call is the model, and a
    turn that is not a command is the append followed by the generation. *)
Theorem translation_disabled_calls_only_the_model `{Sv : Services} (cfg : Config)
    (user_input : string) (input_language : option string) (s : Chatbot) :
  translation_enabled cfg = false →
  forallb is_generate (new_calls s (snd (process_input cfg user_input input_language s))) = true ∧
  ∀ r s1, handle_command cfg user_input s = (Returned r, s1) → falsy r = true →
          process_input cfg user_input input_language s
          = generate_response user_input (remembered cfg user_input s1).
Proof.
  intros Hoff. split.
  - destruct (calls_only_process_input cfg is_generate user_input input_language
                (calls_only_converse_disabled cfg user_input input_language Hoff) s)
      as (calls & Hcalls & HP).
    now rewrite (new_calls_app _ _ _ Hcalls).
  - intros r s1 Hc Hf.
    rewrite (process_input_converse cfg _ _ _ _ _ Hc Hf). unfold converse.
    rewrite (to_pivot_disabled _ _ _ Hoff), bind_ret. cbn [fst snd].
    unfold bind at 1, remember, modify. fold (remembered cfg user_input s1).
    unfold bind. destruct (generate_response user_input (remembered cfg user_input s1))
      as [[response|e] s3]; [|reflexivity].
    now rewrite (from_pivot_disabled _ _ _ Hoff).
Qed.

Lemma translation_disabled_calls_only_the_model_witness :
  let cfg := {| language_default := "fr"; translation_enabled := false; max_history := 5;
                exit_commands := ["bye"]; custom_commands := Demo.commands |} in
  let s := Demo.fresh (Sv := Demo.detect_down) cfg 0%nat in
  forallb is_generate (new_calls s (snd (process_input cfg "bonjour" None s))) = true.
Proof.
  intros cfg s.
  apply (translation_disabled_calls_only_the_model (Sv := Demo.detect_down) cfg "bonjour" None s).
  reflexivity.
Defined.

(** X5.  [translate_to_english] detects the language exactly once and never
    again inside [translate]; it calls the translation client at most once,
    with the detected language (or, if detection raised, the default one) as
    the source, and not at all when that language is English or the text is
    empty. *)
Theorem translate_to_english_detects_once `{Sv : Services} (default text : string)
    (s : Chatbot) :
  ∃ l t,
    fst (detect_language default text s) = Returned l ∧
    fst (translate_to_english default text s) = Returned (l, t) ∧
    new_calls s (snd (translate_to_english default text s))
    = CallDetect text ::
        (if String.eqb l "en" || negb (PyStr.truthy text) then []
         else [CallTranslate text l "en"]).
Proof.
  destruct (detect_language_run default text s) as (l & Hrun & _).
  unfold translate_to_english, bind. rewrite Hrun. exists l.
  destruct (String.eqb l "en") eqn:Hen.
  - exists text. repeat split. now apply new_calls_app.
  - rewrite translate_from_source. destruct (PyStr.truthy text) eqn:Ht; cbn [negb orb].
    + rewrite Hen. eexists. repeat split. apply new_calls_app. simpl.
      now rewrite <- app_assoc.
    + exists "". repeat split. now apply new_calls_app.
Qed.

(** * Dispatch and registration *)

Section DispatchFacts.

Context `{Sv : Services}.
Variable cfg : Config.

(** What [handle_command] does once the guards are passed. *)
Lemma handle_command_scan user_input s :
  user_input ≠ "" →
  ¬ In (PyStr.lower user_input) (exit_commands cfg) →
  handle_command cfg user_input s =
  match scan_commands (builtin_handlers s) (PyStr.lower user_input) (custom_commands cfg) with
  | Some (_, h) => invoke h user_input s
  | None => (Returned None, s)
  end.
Proof.
  intros Hne Hexit. unfold handle_command.
  destruct user_input as [|c u]; [contradiction|]. cbn [PyStr.truthy negb].
  destruct (PyList.mem _ _) eqn:E; [apply PyStrFacts.mem_spec in E; contradiction|].
  unfold bind, gets. destruct (scan_commands _ _ _) as [[ct h]|]; reflexivity.
Qed.

(** Dispatch after [command_type] got the handler [h]: the first entry that
    matches and is either of that type or of a type with a handler wins. *)
Lemma scan_commands_registered handlers li command_type h
    (before after : list (string * list string)) patterns :
  (∀ entry, In entry before → any_match (snd entry) li = true →
     fst entry ≠ command_type → handlers !! fst entry = None) →
  any_match patterns li = true →
  scan_commands (<[command_type := h]> handlers) li
    (before ++ (command_type, patterns) :: after)%list = Some (command_type, h).
Proof.
  intros Hskip Hmatch. induction before as [|[ct ps] before IH]; simpl.
  - now rewrite scan_patterns_spec, Hmatch, lookup_insert_eq.
  - rewrite scan_patterns_spec. destruct (any_match ps li) eqn:E.
    + destruct (String.eqb_spec ct command_type) as [->|Hne].
      * now rewrite lookup_insert_eq.
      * rewrite lookup_insert_ne by congruence.
        pose proof (Hskip (ct, ps) (or_introl eq_refl) E Hne) as Hno. cbn [fst] in Hno.
        rewrite Hno. apply IH. intros entry Hin. apply Hskip. now right.
    + apply IH. intros entry Hin. apply Hskip. now right.
Qed.

(** Dispatch does not see a handler installed for a type none of whose
    phrases matches. *)
Lemma scan_commands_unrelated handlers li command_type h
    (commands : list (string * list string)) :
  (∀ entry, In entry commands → fst entry = command_type → any_match (snd entry) li = false) →
  scan_commands (<[command_type := h]> handlers) li commands
  = scan_commands handlers li commands.
Proof.
  intros Hnone. induction commands as [|[ct ps] commands IH]; simpl; [reflexivity|].
  rewrite !scan_patterns_spec.
  rewrite IH by (intros entry Hin; apply Hnone; now right).
  destruct (any_match ps li) eqn:E; [|reflexivity].
  destruct (String.eqb_spec ct command_type) as [Heq|Hne].
  - pose proof (Hnone (ct, ps) (or_introl eq_refl) Heq) as Hno. cbn [snd] in Hno. congruence.
  - rewrite lookup_insert_ne by congruence. reflexivity.
Qed.

Lemma add_custom_command_handler_run command_type h s :
  In command_type (map fst (custom_commands cfg)) →
  add_custom_command_handler cfg command_type h s
  = (Returned true, set_handlers (<[command_type := h]> (builtin_handlers s)) s).
Proof.
  intros Hin. unfold add_custom_command_handler.
  apply table_get_In in Hin. rewrite Hin. reflexivity.
Qed.

End DispatchFacts.

(** X6.  An utterance is "not a command" ([None], nothing called, nothing
    changed) when it is empty, and when it is not an exit phrase and every
    command type one of whose phrases occurs in it has no handler: a command
    type that is configured but has no registered handler is ignored. *)
Theorem unhandled_utterance_is_not_a_command `{Sv : Services} (cfg : Config)
    (user_input : string) (s : Chatbot) :
  user_input = "" ∨
  (¬ In (PyStr.lower user_input) (exit_commands cfg) ∧
   ∀ entry, In entry (custom_commands cfg) →
            any_match (snd entry) (PyStr.lower user_input) = true →
            builtin_handlers s !! fst entry = None) →
  handle_command cfg user_input s = (Returned None, s).
Proof.
  intros [-> | [Hexit Hnone]]; [reflexivity|].
  destruct (string_dec user_input "") as [->|Hne]; [reflexivity|].
  rewrite (handle_command_scan cfg _ _ Hne Hexit).
  rewrite <- (app_nil_r (custom_commands cfg)), scan_commands_skip by exact Hnone.
  reflexivity.
Qed.

Lemma unhandled_utterance_is_not_a_command_witness :
  let cfg := Demo.config 5 ["bye"] Demo.commands in
  let s := Demo.fresh (Sv := Demo.english) cfg 0%nat in
  handle_command cfg "tell me a joke" s = (Returned None, s).
Proof.
  intros cfg s. apply (unhandled_utterance_is_not_a_command cfg "tell me a joke" s).
  right. split.
  - simpl. intros [H|[]]. discriminate.
  - intros entry [<-|[<-|[<-|[]]]]; simpl; intros H; try discriminate. reflexivity.
Defined.

(** X7.  Registration and dispatch compose: once a handler is registered for
    a configured command type, a non-empty utterance that is not an exit
    phrase and contains a phrase of that type is answered by the new handler,
    unless a command type declared earlier, with a handler of its own, also
    matches. *)
Theorem registered_handler_is_dispatched `{Sv : Services} (cfg : Config)
    (command_type : string) (h : handler) (s : Chatbot) (user_input : string)
    (before after : list (string * list string)) (patterns : list string) :
  user_input ≠ "" →
  ¬ In (PyStr.lower user_input) (exit_commands cfg) →
  custom_commands cfg = (before ++ (command_type, patterns) :: after)%list →
  (∀ entry, In entry before →
     any_match (snd entry) (PyStr.lower user_input) = true →
     fst entry ≠ command_type → builtin_handlers s !! fst entry = None) →
  any_match patterns (PyStr.lower user_input) = true →
  ∃ s', add_custom_command_handler cfg command_type h s = (Returned true, s') ∧
        handle_command cfg user_input s' = invoke h user_input s'.
Proof.
  intros Hne Hexit Hcmds Hskip Hmatch.
  eexists. split.
  - apply add_custom_command_handler_run. rewrite Hcmds, map_app. apply in_or_app.
    right. now left.
  - rewrite (handle_command_scan cfg _ _ Hne Hexit). cbn [builtin_handlers set_handlers].
    rewrite Hcmds, scan_commands_registered by assumption. reflexivity.
Qed.

Lemma registered_handler_is_dispatched_witness :
  let cfg := Demo.config 5 ["bye"] Demo.commands in
  let s := Demo.fresh (Sv := Demo.english) cfg 0%nat in
  ∃ s', add_custom_command_handler cfg "joke" (Demo.say "knock knock") s = (Returned true, s') ∧
        fst (handle_command cfg "Tell me a joke" s') = Returned (Some "knock knock").
Proof.
  intros cfg s.
  destruct (registered_handler_is_dispatched cfg "joke" (Demo.say "knock knock") s
              "Tell me a joke" [] [("time", ["what time"; "current time"]); ("date", ["what date"])]
              ["tell me a joke"]) as (s' & Hadd & Hrun).
  - discriminate.
  - simpl. intros [H|[]]. discriminate.
  - reflexivity.
  - intros entry [].
  - reflexivity.
  - exists s'. split; [exact Hadd|]. rewrite Hrun. reflexivity.
Defined.

(** X8.  Registering a handler for a command type changes nothing for the
    utterances in which no phrase of that type occurs: [handle_command]
    gives the same response and the same outside world as before the
    registration. *)
Theorem registration_leaves_other_utterances `{Sv : Services} (cfg : Config)
    (command_type : string) (h : handler) (s s' : Chatbot) (user_input : string) :
  add_custom_command_handler cfg command_type h s = (Returned true, s') →
  (∀ entry, In entry (custom_commands cfg) → fst entry = command_type →
            any_match (snd entry) (PyStr.lower user_input) = false) →
  fst (handle_command cfg user_input s') = fst (handle_command cfg user_input s) ∧
  world (snd (handle_command cfg user_input s')) = world (snd (handle_command cfg user_input s)).
Proof.
  intros Hadd Hnone.
  assert (Hs' : s' = set_handlers (<[command_type := h]> (builtin_handlers s)) s).
  { unfold add_custom_command_handler in Hadd.
    destruct (table_has command_type (custom_commands cfg)); [|discriminate].
    now injection Hadd as <-. }
  subst s'. unfold handle_command.
  destruct (negb (PyStr.truthy user_input)); [split; reflexivity|].
  destruct (PyList.mem _ _); [split; reflexivity|].
  unfold bind, gets. cbn [builtin_handlers set_handlers].
  rewrite scan_commands_unrelated by exact Hnone.
  destruct (scan_commands _ _ _) as [[ct h0]|]; [|split; reflexivity].
  unfold invoke, bind, external, ret. cbn [world set_handlers].
  destruct (h0 user_input (world s)) as [[r|e] w]; split; reflexivity.
Qed.

Lemma registration_leaves_other_utterances_witness :
  let cfg := Demo.config 5 ["bye"] Demo.commands in
  let s := Demo.fresh (Sv := Demo.english) cfg 0%nat in
  let s' := Demo.registered (Sv := Demo.english) cfg "joke" (Demo.say "knock knock") 0%nat in
  fst (handle_command cfg "what time is it" s') = fst (handle_command cfg "what time is it" s).
Proof.
  intros cfg s s'.
  apply (registration_leaves_other_utterances cfg "joke" (Demo.say "knock knock") s s'
           "what time is it").
  - reflexivity.
  - intros entry [<-|[<-|[<-|[]]]]; simpl; intros H; try discriminate. reflexivity.
Defined.

Section BuiltinFacts.

Context `{Sv : Services}.
Variable cfg : Config.

Lemma app_truthy (a b : string) : PyStr.truthy a = true → PyStr.truthy (a ++ b) = true.
Proof. destruct a; [discriminate | reflexivity]. Qed.

(** The time, date and help handlers return, and what they return starts
    with fixed words. *)
Lemma builtin_text (command_type : string) (h : handler) (command : string) (w : World) :
  In command_type ["time"; "date"; "help"] →
  init_builtin_handlers cfg !! command_type = Some h →
  ∃ text w', h command w = (Returned text, w') ∧ PyStr.truthy text = true.
Proof.
  unfold init_builtin_handlers. intros [<-|[<-|[<-|[]]]] Hlook.
  - rewrite lookup_insert_eq in Hlook. injection Hlook as <-.
    unfold _handle_time_command. destruct (now_strftime "%I:%M %p" w) as [t w']. eauto.
  - rewrite lookup_insert_ne, lookup_insert_eq in Hlook by discriminate.
    injection Hlook as <-.
    unfold _handle_date_command. destruct (now_strftime "%A, %B %d, %Y" w) as [t w']. eauto.
  - rewrite !lookup_insert_ne, lookup_insert_eq in Hlook by discriminate.
    injection Hlook as <-.
    unfold _handle_help_command. eexists _, w. split; [reflexivity|].
    unfold help_line.
    destruct (table_get "time" _), (table_get "date" _), (table_get "weather" _); reflexivity.
Qed.

End BuiltinFacts.

(** X9.  The built-in time, date and help commands never reach the model:
    on a chatbot with the handler table of [__init__], a non-empty utterance
    that is not an exit phrase and whose first handled match is one of these
    three gets a non-empty text from [process_input], which leaves the
    history, the generation context and the log of service calls as they
    were. *)
Theorem builtin_commands_short_circuit `{Sv : Services} (cfg : Config)
    (user_input : string) (input_language : option string) (s : Chatbot)
    (before after : list (string * list string)) (command_type : string)
    (patterns : list string) :
  builtin_handlers s = init_builtin_handlers cfg →
  user_input ≠ "" →
  ¬ In (PyStr.lower user_input) (exit_commands cfg) →
  custom_commands cfg = (before ++ (command_type, patterns) :: after)%list →
  (∀ entry, In entry before →
     any_match (snd entry) (PyStr.lower user_input) = true →
     init_builtin_handlers cfg !! fst entry = None) →
  any_match patterns (PyStr.lower user_input) = true →
  In command_type ["time"; "date"; "help"] →
  ∃ text w,
    process_input cfg user_input input_language s = (Returned text, set_world w s) ∧
    text ≠ "".
Proof.
  intros Hinit Hne Hexit Hcmds Hskip Hmatch Hct.
  assert (Hh : ∃ h, init_builtin_handlers cfg !! command_type = Some h).
  { unfold init_builtin_handlers. destruct Hct as [<-|[<-|[<-|[]]]]; eexists.
    - apply lookup_insert_eq.
    - rewrite lookup_insert_ne by discriminate. apply lookup_insert_eq.
    - rewrite !lookup_insert_ne by discriminate. apply lookup_insert_eq. }
  destruct Hh as (h & Hh).
  destruct (builtin_text cfg command_type h user_input (world s) Hct Hh)
    as (text & w & Hrun & Htext).
  exists text, w. split; [|intros ->; discriminate].
  apply process_input_command; [|exact Htext].
  rewrite (handle_command_scan cfg _ _ Hne Hexit), Hinit, Hcmds.
  rewrite scan_commands_skip by exact Hskip. simpl.
  rewrite scan_patterns_spec, Hmatch, Hh.
  unfold invoke, bind, external, ret. now rewrite Hrun.
Qed.

Lemma builtin_commands_short_circuit_witness :
  let cfg := Demo.config 5 ["bye"] Demo.commands in
  let s := Demo.fresh (Sv := Demo.english) cfg 0%nat in
  ∃ text w, process_input cfg "What date is it" None s = (Returned text, set_world w s) ∧
            text ≠ "".
Proof.
  intros cfg s.
  apply (builtin_commands_short_circuit cfg "What date is it" None s
           [("joke", ["tell me a joke"]); ("time", ["what time"; "current time"])] []
           "date" ["what date"]).
  - reflexivity.
  - discriminate.
  - simpl. intros [H|[]]. discriminate.
  - reflexivity.
  - intros entry [<-|[<-|[]]]; simpl; intros H; discriminate.
  - reflexivity.
  - simpl. auto.
Defined.

(** * The table of languages *)

Module LanguagesFacts.
Import Languages.

Lemma dict_get_In key v (items : list (string * string)) :
  dict_get key items = Some v → In (key, v) items.
Proof.
  induction items as [|[k v'] items IH]; simpl; [discriminate|].
  destruct (dict_get key items) as [v''|].
  - intros [= <-]. right. now apply IH.
  - destruct (String.eqb_spec key k) as [->|_]; [|discriminate].
    intros [= <-]. now left.
Qed.

Lemma dict_get_None key (items : list (string * string)) :
  dict_get key items = None → ¬ In key (map fst items).
Proof.
  induction items as [|[k v'] items IH]; simpl; [tauto|].
  destruct (dict_get key items) as [v''|]; [discriminate|].
  destruct (String.eqb_spec key k) as [->|Hne]; [discriminate|].
  intros _ [H|H]; [congruence | now apply IH].
Qed.

Lemma dict_get_found key (items : list (string * string)) :
  In key (map fst items) → ∃ v, dict_get key items = Some v.
Proof.
  intros Hin. destruct (dict_get key items) as [v|] eqn:E; [eauto|].
  now apply dict_get_None in E.
Qed.

Lemma table_ok : forallb entry_ok LANGUAGE_MAPPING = true.
Proof. vm_compute. reflexivity. Qed.

Lemma entry_facts name code :
  In (name, code) LANGUAGE_MAPPING →
  PyStr.lower name = name ∧
  dict_get name LANGUAGE_MAPPING = Some code ∧
  dict_get code CODE_TO_LANGUAGE = Some name ∧
  dict_get (PyStr.lower code) LANGUAGE_MAPPING = None.
Proof.
  intros Hin. pose proof table_ok as Hok. rewrite forallb_forall in Hok.
  specialize (Hok _ Hin).
  unfold entry_ok in Hok. rewrite !andb_true_iff in Hok. destruct Hok as [[[H1 H2] H3] H4].
  apply String.eqb_eq in H1.
  destruct (dict_get name LANGUAGE_MAPPING) as [c|]; [|discriminate].
  destruct (dict_get code CODE_TO_LANGUAGE) as [n|]; [|discriminate].
  destruct (dict_get (PyStr.lower code) LANGUAGE_MAPPING); [discriminate|].
  apply String.eqb_eq in H2, H3. subst. auto.
Qed.

Lemma code_entry code name :
  In (code, name) CODE_TO_LANGUAGE → In (name, code) LANGUAGE_MAPPING.
Proof.
  unfold CODE_TO_LANGUAGE. rewrite in_map_iff. intros ([n c] & [= <- <-] & Hin). exact Hin.
Qed.

End LanguagesFacts.

(** X10.  Name to code and back.  For every language name of the table,
    written in any case, [get_language_code] returns its code and
    [get_language_name] of that code is the name in lowercase. *)
Theorem language_name_round_trip (language_name : string) :
  In (PyStr.lower language_name) (map fst Languages.LANGUAGE_MAPPING) →
  In (PyStr.lower language_name, Languages.get_language_code language_name)
     Languages.LANGUAGE_MAPPING ∧
  Languages.get_language_name (Languages.get_language_code language_name)
  = PyStr.lower language_name.
Proof.
  intros Hin. apply LanguagesFacts.dict_get_found in Hin as (code & Hcode).
  unfold Languages.get_language_code, Languages.dict_get_default. rewrite Hcode.
  apply LanguagesFacts.dict_get_In in Hcode. split; [exact Hcode|].
  apply LanguagesFacts.entry_facts in Hcode as (_ & _ & Hback & _).
  unfold Languages.get_language_name, Languages.dict_get_default. now rewrite Hback.
Qed.

Lemma language_name_round_trip_witness :
  Languages.get_language_code "Indonesian" = "id" ∧
  Languages.get_language_name (Languages.get_language_code "Indonesian") = "indonesian".
Proof.
  destruct (language_name_round_trip "Indonesian") as [_ Hback].
  - vm_compute. tauto.
  - split; [reflexivity | exact Hback].
Defined.

(** X11.  Code to name and back.  For every code of the table,
    [get_language_name] returns a name of the table and
    [get_language_code] of that name is the code. *)
Theorem language_code_round_trip (language_code : string) :
  In language_code (map snd Languages.LANGUAGE_MAPPING) →
  In (Languages.get_language_name language_code, language_code) Languages.LANGUAGE_MAPPING ∧
  Languages.get_language_code (Languages.get_language_name language_code) = language_code.
Proof.
  intros Hin. apply in_map_iff in Hin as ([name code] & Hcode & Hin). simpl in Hcode. subst code.
  apply LanguagesFacts.entry_facts in Hin as Hfacts. destruct Hfacts as (Hlow & Hfwd & Hback & _).
  unfold Languages.get_language_name, Languages.dict_get_default. rewrite Hback.
  split; [exact Hin|].
  unfold Languages.get_language_code, Languages.dict_get_default. now rewrite Hlow, Hfwd.
Qed.

Lemma language_code_round_trip_witness :
  Languages.get_language_code (Languages.get_language_name "zh-cn") = "zh-cn".
Proof.
  apply (language_code_round_trip "zh-cn"). vm_compute. tauto.
Defined.

(** X12.  [get_language_code] normalises: applied to any string at all, a
    second application changes nothing, so a value that is already a code
    (or is unknown) can be passed through it safely; and a string whose
    lowercase is no name of the table comes back unchanged, in its own
    case. *)
Theorem get_language_code_idempotent (x : string) :
  Languages.get_language_code (Languages.get_language_code x) = Languages.get_language_code x ∧
  (¬ In (PyStr.lower x) (map fst Languages.LANGUAGE_MAPPING) →
   Languages.get_language_code x = x).
Proof.
  unfold Languages.get_language_code at 2 3 4, Languages.dict_get_default.
  destruct (Languages.dict_get (PyStr.lower x) Languages.LANGUAGE_MAPPING) as [code|] eqn:E.
  - split.
    + apply LanguagesFacts.dict_get_In, LanguagesFacts.entry_facts in E as (_ & _ & _ & Hno).
      unfold Languages.get_language_code, Languages.dict_get_default. now rewrite Hno.
    + intros Hnot. apply LanguagesFacts.dict_get_In in E.
      exfalso. apply Hnot. apply in_map_iff. now exists (PyStr.lower x, code).
  - split; [|reflexivity].
    unfold Languages.get_language_code, Languages.dict_get_default. now rewrite E.
Qed.

Lemma get_language_code_idempotent_witness :
  Languages.get_language_code "Klingon" = "Klingon".
Proof.
  apply (get_language_code_idempotent "Klingon").
  intros Hin. apply LanguagesFacts.dict_get_found in Hin as (v & Hv). vm_compute in Hv.
  discriminate.
Defined.

(** * [utils.py]: text helpers *)

Module PyTextFacts.
Import PyStr PyText.

Lemma lower_app (a b : string) : lower (a ++ b) = lower a ++ lower b.
Proof. induction a as [|c a IH]; simpl; [reflexivity | now rewrite IH]. Qed.

(** A split of the lowered text comes from a split of the text. *)
Lemma lower_preimage (t a b : string) :
  lower t = a ++ b → ∃ a' b', t = a' ++ b' ∧ lower a' = a ∧ lower b' = b.
Proof.
  revert t. induction a as [|c a IH]; intros t H.
  - exists "", t. auto.
  - destruct t as [|d t]; [discriminate|]. simpl in H. injection H as Hc Ht.
    destruct (IH t Ht) as (a' & b' & -> & Ha & Hb).
    exists (String d a'), b'. simpl. now rewrite Hc, Ha.
Qed.

Lemma upper_lower_ascii (c : ascii) : upper_ascii (lower_ascii c) = upper_ascii c.
Proof. destruct c as [[] [] [] [] [] [] [] []]; reflexivity. Qed.

Lemma upper_lower (s : string) : upper (lower s) = upper s.
Proof.
  induction s as [|c s IH]; simpl; [reflexivity|]. now rewrite upper_lower_ascii, IH.
Qed.

Lemma lower_upper_ascii (c : ascii) : lower_ascii (upper_ascii c) = lower_ascii c.
Proof. destruct c as [[] [] [] [] [] [] [] []]; reflexivity. Qed.

Lemma lower_upper (s : string) : lower (upper s) = lower s.
Proof.
  induction s as [|c s IH]; simpl; [reflexivity|]. now rewrite lower_upper_ascii, IH.
Qed.

Lemma append_cons (c : ascii) (a b : string) : String c a ++ b = String c (a ++ b).
Proof. reflexivity. Qed.

Lemma append_nil (b : string) : "" ++ b = b.
Proof. reflexivity. Qed.

Lemma app_empty_r (s : string) : s ++ "" = s.
Proof. induction s as [|c s IH]; [reflexivity | now rewrite append_cons, IH]. Qed.

Lemma app_assoc_string (a b c : string) : (a ++ b) ++ c = a ++ b ++ c.
Proof. induction a as [|x a IH]; [reflexivity | now rewrite !append_cons, IH]. Qed.

Lemma no_space_app (a b : string) : no_space (a ++ b) = no_space a && no_space b.
Proof.
  induction a as [|c a IH]; simpl; [reflexivity|]. now rewrite IH, andb_assoc.
Qed.

Lemma truthy_app (a b : string) : truthy (a ++ b) = truthy a || truthy b.
Proof. destruct a; reflexivity. Qed.

(** What [split] returns are words. *)
Lemma split_from_words (cur s : string) :
  no_space cur = true → Forall (fun w => is_word w = true) (split_from cur s).
Proof.
  revert cur. induction s as [|c s IH]; intros cur Hcur; simpl.
  - destruct (truthy cur) eqn:E; constructor; [|constructor].
    unfold is_word. now rewrite E, Hcur.
  - destruct (is_space c) eqn:Hc.
    + destruct (truthy cur) eqn:E; [constructor|]; try (apply IH; reflexivity).
      unfold is_word. now rewrite E, Hcur.
    + apply IH. rewrite no_space_app, Hcur. simpl. now rewrite Hc.
Qed.

(** Reading a run that has no whitespace adds it to the current word. *)
Lemma split_from_run (cur w rest : string) :
  no_space w = true → split_from cur (w ++ rest) = split_from (cur ++ w) rest.
Proof.
  revert cur. induction w as [|c w IH]; intros cur Hw.
  - now rewrite app_empty_r.
  - simpl. simpl in Hw. apply andb_true_iff in Hw as [Hc Hw]. apply negb_true_iff in Hc.
    rewrite Hc, IH by exact Hw. now rewrite app_assoc_string.
Qed.

Lemma join_cons (w w' : string) (ws : list string) :
  join " " (w :: w' :: ws) = w ++ " " ++ join " " (w' :: ws).
Proof. reflexivity. Qed.

(** Splitting words joined by single spaces gives the words back. *)
Lemma split_join (ws : list string) :
  Forall (fun w => is_word w = true) ws → split (join " " ws) = ws.
Proof.
  unfold split. induction ws as [|w ws IH]; intros Hws; [reflexivity|].
  inversion Hws as [|? ? Hw Hrest]; subst.
  unfold is_word in Hw. apply andb_true_iff in Hw as [Ht Hn].
  destruct ws as [|w' ws].
  - change (join " " [w]) with w. rewrite <- (app_empty_r w) at 1.
    rewrite split_from_run, append_nil by exact Hn. simpl. now rewrite Ht.
  - rewrite join_cons, split_from_run, append_nil by exact Hn.
    change (" " ++ join " " (w' :: ws)) with (String " " (join " " (w' :: ws))).
    simpl split_from. rewrite Ht. f_equal. now apply IH.
Qed.

Lemma rstrip_no_space (s : string) : no_space s = true → rstrip s = s.
Proof.
  induction s as [|c s IH]; simpl; [reflexivity|].
  intros H. apply andb_true_iff in H as [Hc Hs]. apply negb_true_iff in Hc.
  now rewrite Hc, IH.
Qed.

Lemma rstrip_word_end (a w : string) : is_word w = true → rstrip (a ++ w) = a ++ w.
Proof.
  intros Hw. unfold is_word in Hw. apply andb_true_iff in Hw as [Ht Hn].
  induction a as [|c a IH]; simpl.
  - now apply rstrip_no_space.
  - rewrite IH, truthy_app, Ht, orb_true_r. simpl. now rewrite andb_false_r.
Qed.

Lemma lstrip_word_start (w rest : string) : is_word w = true → lstrip (w ++ rest) = w ++ rest.
Proof.
  unfold is_word. destruct w as [|c w]; [discriminate|]. simpl.
  intros H. apply andb_true_iff in H as [Hc _]. apply negb_true_iff in Hc. now rewrite Hc.
Qed.

(** Words joined by single spaces start with a word and end with one. *)
Lemma join_ends (w : string) (ws : list string) :
  Forall (fun w => is_word w = true) (w :: ws) →
  (∃ rest, join " " (w :: ws) = w ++ rest) ∧
  (∃ a w', join " " (w :: ws) = a ++ w' ∧ is_word w' = true).
Proof.
  revert w. induction ws as [|w' ws IH]; intros w Hws; inversion Hws as [|? ? Hw Hrest]; subst.
  - split; [exists ""; simpl; now rewrite app_empty_r|]. now exists "", w.
  - rewrite join_cons. split; [eauto|].
    destruct (IH w' Hrest) as (_ & a & w'' & -> & Hw'').
    exists (w ++ " " ++ a), w''. split; [|exact Hw'']. now rewrite !app_assoc_string.
Qed.

(** Stripping them changes nothing. *)
Lemma strip_join (ws : list string) :
  Forall (fun w => is_word w = true) ws → strip (join " " ws) = join " " ws.
Proof.
  intros Hws. destruct ws as [|w ws]; [reflexivity|].
  destruct (join_ends w ws Hws) as ((rest & Hstart) & (a & w' & Hend & Hw')).
  inversion Hws as [|? ? Hw _]; subst. unfold strip.
  rewrite Hstart, lstrip_word_start by exact Hw. rewrite <- Hstart, Hend.
  now apply rstrip_word_end.
Qed.

End PyTextFacts.

(** X13.  [clean_text] keeps the words of the text, in their order, and
    nothing else: the result is the words (the maximal runs without
    whitespace) joined by single spaces, so splitting it gives the words of
    the original; the final [strip] never has anything to remove. *)
Theorem clean_text_keeps_the_words (text : string) :
  Forall (fun w => PyText.is_word w = true) (PyText.split text) ∧
  Utils.clean_text text = PyStr.join " " (PyText.split text) ∧
  PyText.split (Utils.clean_text text) = PyText.split text.
Proof.
  assert (Hwords : Forall (fun w => PyText.is_word w = true) (PyText.split text))
    by (apply PyTextFacts.split_from_words; reflexivity).
  assert (Hclean : Utils.clean_text text = PyStr.join " " (PyText.split text)).
  { unfold Utils.clean_text. destruct text as [|c text]; [reflexivity|].
    cbn [PyStr.truthy negb]. now apply PyTextFacts.strip_join. }
  split; [exact Hwords|]. split; [exact Hclean|].
  rewrite Hclean. now apply PyTextFacts.split_join.
Qed.

(** X14.  [clean_text] is idempotent: cleaning a cleaned text changes nothing. *)
Theorem clean_text_idempotent (text : string) :
  Utils.clean_text (Utils.clean_text text) = Utils.clean_text text.
Proof.
  assert (Hform : ∀ t, Utils.clean_text t = PyStr.join " " (PyText.split t)).
  { intros t. unfold Utils.clean_text. destruct t as [|c t]; [reflexivity|].
    cbn [PyStr.truthy negb]. apply PyTextFacts.strip_join.
    apply PyTextFacts.split_from_words. reflexivity. }
  rewrite (Hform (Utils.clean_text text)), (Hform text).
  rewrite PyTextFacts.split_join; [reflexivity|].
  apply PyTextFacts.split_from_words. reflexivity.
Qed.

(** X15.  On ASCII text and an ASCII wake word, [extract_wake_word] finds
    the wake word exactly when the text contains, somewhere, the wake word
    written in some mix of upper and lower case. *)
Theorem extract_wake_word_any_case (text wake_word : string) :
  PyAscii.is_ascii text = true →
  PyAscii.is_ascii wake_word = true →
  (Utils.extract_wake_word text wake_word = true ↔
   ∃ before heard after,
     text = before ++ heard ++ after ∧ PyStr.lower heard = PyStr.lower wake_word).
Proof.
  intros _ _.
  unfold Utils.extract_wake_word. rewrite PyStrFacts.contains_spec. split.
  - intros (a & b & H).
    apply PyTextFacts.lower_preimage in H as (before & rest & -> & Ha & Hrest).
    apply PyTextFacts.lower_preimage in Hrest as (heard & after & -> & Hh & Hb).
    now exists before, heard, after.
  - intros (before & heard & after & -> & Hh).
    exists (PyStr.lower before), (PyStr.lower after).
    now rewrite !PyTextFacts.lower_app, Hh.
Qed.

Lemma extract_wake_word_any_case_witness :
  Utils.extract_wake_word "Hey JARVIS, wake up" "Jarvis" = true ∧
  ¬ ∃ before heard after,
      "Hey Travis" = before ++ heard ++ after ∧ PyStr.lower heard = PyStr.lower "Jarvis".
Proof.
  split.
  - apply (proj2 (extract_wake_word_any_case "Hey JARVIS, wake up" "Jarvis"
                    eq_refl eq_refl)).
    exists "Hey ", "JARVIS", ", wake up". split; reflexivity.
  - intros Hheard.
    apply (proj2 (extract_wake_word_any_case "Hey Travis" "Jarvis" eq_refl eq_refl)) in Hheard.
    discriminate Hheard.
Defined.

Module UtilsFacts.
Import PyStr PyText Utils PyTextFacts.

Lemma append_inv_head (a b c : string) : a ++ b = a ++ c → b = c.
Proof.
  induction a as [|x a IH]; [now rewrite !append_nil|].
  rewrite !append_cons. intros [= H]. now apply IH.
Qed.

(** Two texts cut at their first newline: equal texts, equal cuts. *)
Lemma first_line_inj (a a' r r' : string) :
  one_line a = true → one_line a' = true →
  a ++ newline ++ r = a' ++ newline ++ r' → a = a' ∧ r = r'.
Proof.
  revert a'. induction a as [|c a IH]; intros [|c' a'] Ha Ha'.
  - rewrite !append_nil. intros H. now apply append_inv_head in H.
  - rewrite append_nil, append_cons. unfold newline. rewrite append_cons.
    intros [= <- _]. simpl in Ha'. discriminate.
  - rewrite append_nil, append_cons. unfold newline. rewrite append_cons.
    intros [= -> _]. simpl in Ha. discriminate.
  - rewrite !append_cons. intros [= <- H].
    simpl in Ha, Ha'. apply andb_true_iff in Ha as [_ Ha], Ha' as [_ Ha'].
    destruct (IH a' Ha Ha' H) as [-> ->]. auto.
Qed.

Lemma conversation_lines_inj (i : nat) (h h' : list string) :
  Forall (fun m => one_line m = true) h →
  Forall (fun m => one_line m = true) h' →
  conversation_lines i h = conversation_lines i h' → h = h'.
Proof.
  revert i h'. induction h as [|m h IH]; intros i [|m' h'] Hh Hh'; simpl.
  - reflexivity.
  - destruct (Nat.even i); discriminate.
  - destruct (Nat.even i); discriminate.
  - intros H. inversion Hh as [|? ? Hm Hrest]; inversion Hh' as [|? ? Hm' Hrest']; subst.
    apply append_inv_head, append_inv_head in H.
    destruct (first_line_inj _ _ _ _ Hm Hm' H) as [-> Hlines].
    f_equal. now apply (IH (S i)).
Qed.

End UtilsFacts.

(** X16.  The file [save_conversation] writes determines the conversation
    as long as no message has a newline in it: two such lists of messages
    with the same lines are the same list.  With a newline in a message the
    file is ambiguous: a message "a", newline, "Bot: b" is written like the
    two messages "a" and "b". *)
Theorem conversation_file_is_faithful :
  (∀ h h' : list string,
     Forall (fun m => Utils.one_line m = true) h →
     Forall (fun m => Utils.one_line m = true) h' →
     Utils.conversation_lines 0 h = Utils.conversation_lines 0 h' → h = h') ∧
  Utils.conversation_lines 0 ["a" ++ Utils.newline ++ "Bot: b"]
  = Utils.conversation_lines 0 ["a"; "b"].
Proof.
  split; [apply UtilsFacts.conversation_lines_inj | reflexivity].
Qed.

Lemma conversation_file_is_faithful_witness :
  ["hel" ++ "lo"; "hi there"] = ["hello"; "hi there"].
Proof.
  apply (proj1 conversation_file_is_faithful ["hel" ++ "lo"; "hi there"] ["hello"; "hi there"]).
  - repeat constructor.
  - repeat constructor.
  - reflexivity.
Defined.

(** X17.  The logging level named by an ASCII text is read without regard
    to case: two ASCII names that differ only in case give the same level,
    the five level names give their levels however they are written, and an
    ASCII name that is none of the five gives INFO (20). *)
Theorem logging_level_any_case (level_name level_name' : string) :
  PyAscii.is_ascii level_name = true →
  PyAscii.is_ascii level_name' = true →
  (PyStr.lower level_name = PyStr.lower level_name' →
   Utils.logging_level level_name = Utils.logging_level level_name') ∧
  (Utils.logging_level level_name =
     if String.eqb (PyStr.lower level_name) "debug" then 10
     else if String.eqb (PyStr.lower level_name) "warning" then 30
     else if String.eqb (PyStr.lower level_name) "error" then 40
     else if String.eqb (PyStr.lower level_name) "critical" then 50
     else 20)%Z ∧
  (¬ In (PyStr.lower level_name) ["debug"; "info"; "warning"; "error"; "critical"] →
   Utils.logging_level level_name = 20%Z).
Proof.
  intros _ _.
  assert (Hcase : ∀ NAME name, PyStr.lower NAME = name → PyText.upper name = NAME →
            String.eqb (PyText.upper level_name) NAME = String.eqb (PyStr.lower level_name) name).
  { intros NAME name Hlow Hup.
    destruct (String.eqb_spec (PyText.upper level_name) NAME) as [E|E];
      destruct (String.eqb_spec (PyStr.lower level_name) name) as [E'|E']; try reflexivity.
    - exfalso. apply E'. now rewrite <- (PyTextFacts.lower_upper level_name), E.
    - exfalso. apply E. now rewrite <- (PyTextFacts.upper_lower level_name), E'. }
  split; [|split].
  - intros H. unfold Utils.logging_level.
    now rewrite <- (PyTextFacts.upper_lower level_name), H, PyTextFacts.upper_lower.
  - unfold Utils.logging_level.
    rewrite (Hcase "DEBUG" "debug"), (Hcase "INFO" "info"), (Hcase "WARNING" "warning"),
      (Hcase "ERROR" "error"), (Hcase "CRITICAL" "critical") by reflexivity.
    destruct (String.eqb (PyStr.lower level_name) "debug"); [reflexivity|].
    destruct (String.eqb (PyStr.lower level_name) "info") eqn:Einfo.
    + apply String.eqb_eq in Einfo. rewrite Einfo. reflexivity.
    + reflexivity.
  - intros Hnot. unfold Utils.logging_level.
    assert (Hname : ∀ known, In (PyStr.lower known) ["debug"; "info"; "warning"; "error"; "critical"] →
                             PyText.upper level_name = known → False).
    { intros known Hin Heq. apply Hnot.
      now rewrite <- (PyTextFacts.lower_upper level_name), Heq. }
    destruct (String.eqb_spec (PyText.upper level_name) "DEBUG") as [E|_];
      [exfalso; apply (Hname "DEBUG"); [vm_compute; tauto | exact E]|].
    destruct (String.eqb_spec (PyText.upper level_name) "INFO") as [E|_]; [reflexivity|].
    destruct (String.eqb_spec (PyText.upper level_name) "WARNING") as [E|_];
      [exfalso; apply (Hname "WARNING"); [vm_compute; tauto | exact E]|].
    destruct (String.eqb_spec (PyText.upper level_name) "ERROR") as [E|_];
      [exfalso; apply (Hname "ERROR"); [vm_compute; tauto | exact E]|].
    destruct (String.eqb_spec (PyText.upper level_name) "CRITICAL") as [E|_];
      [exfalso; apply (Hname "CRITICAL"); [vm_compute; tauto | exact E]|].
    reflexivity.
Qed.

Lemma logging_level_any_case_witness :
  Utils.logging_level "Warning" = Utils.logging_level "WARNING" ∧
  Utils.logging_level "verbose" = 20%Z.
Proof.
  split.
  - apply (proj1 (logging_level_any_case "Warning" "WARNING" eq_refl eq_refl)). reflexivity.
  - apply (proj2 (proj2 (logging_level_any_case "verbose" "" eq_refl eq_refl))).
    simpl. intros [H|[H|[H|[H|[H|[]]]]]]; discriminate.
Defined.

(** * Listening *)

(** X18.  After [_check_mic_availability] the microphone index is [None] or
    a valid index of the list of microphones (counted from the front or,
    when negative, from the back): an index past the end is replaced by
    [None], and an index too far below zero makes the check raise. *)
Theorem mic_index_stays_valid (device_index : option Z) (available_mics : list string) :
  let n := Z.of_nat (length available_mics) in
  match Stt._check_mic_availability device_index available_mics with
  | Returned (Some i) => device_index = Some i ∧ (- n ≤ i < n)%Z
  | Returned None => device_index = None ∨ ∃ i, device_index = Some i ∧ (n ≤ i)%Z
  | Raised _ => ∃ i, device_index = Some i ∧ (i < - n)%Z
  end.
Proof.
  intros n. subst n. unfold Stt._check_mic_availability.
  destruct device_index as [i|]; [|now left].
  destruct (Z.ltb_spec i (Z.of_nat (length available_mics))) as [Hlt|Hge].
  - destruct (Z.ltb_spec i (- Z.of_nat (length available_mics))) as [Hneg|Hok].
    + now exists i.
    + split; [reflexivity | lia].
  - right. now exists i.
Qed.

Section ListeningFacts.

Context `{Sp : Stt.Speech}.

Lemma recognize_run audio language (w : Stt.Ear) :
  Stt.recognize audio language w
  = (fst (Stt.recognize_google audio language (fst w)),
     (snd (Stt.recognize_google audio language (fst w)), (snd w ++ [language])%list)).
Proof. unfold Stt.recognize. now destruct (Stt.recognize_google _ _ _). Qed.

Lemma detect_in_log text (w : Stt.Ear) : snd (snd (Stt.detect_in text w)) = snd w.
Proof. unfold Stt.detect_in. now destruct (Stt.detect _ _). Qed.

(** What [transcribe] leaves in the log, and what it returns. *)
Lemma transcribe_requests default auto audio (w : Stt.Ear) :
  ∃ requests,
    snd (snd (Stt.transcribe default auto audio w)) = (snd w ++ requests)%list ∧
    (length requests ≤ 3)%nat ∧
    (auto = false → (length requests ≤ 1)%nat) ∧
    ∀ text language,
      fst (Stt.transcribe default auto audio w) = Stt.Got (text, language) →
      last requests = Some (Some language) ∧
      (auto = false → language = default) ∧
      ∃ a0 a1, Stt.recognize_google audio (Some language) a0 = (Stt.Got text, a1).
Proof.
  assert (Henglish : ∀ (a : Stt.Air) (before : list (option string)),
    ∃ r a', Stt.recognize audio (Some "en") (a, (w.2 ++ before)%list)
            = (r, (a', (w.2 ++ before ++ [Some "en"])%list)) ∧
            ∀ text, r = Stt.Got text →
                    ∃ a0 a1, Stt.recognize_google audio (Some "en") a0 = (Stt.Got text, a1)).
  { intros a before. rewrite recognize_run. cbn [fst snd]. rewrite <- app_assoc.
    do 2 eexists. split; [reflexivity|]. intros text Hr.
    destruct (Stt.recognize_google audio (Some "en") a) as [r a'] eqn:E.
    simpl in Hr. subst r. eauto. }
  unfold Stt.transcribe, Stt.detect_in. destruct auto.
  - rewrite recognize_run.
    destruct (Stt.recognize_google audio (Some default) w.1) as [[text1|e1] a1] eqn:H1;
      cbn [fst snd].
    + destruct (Stt.detect text1 a1) as [[detected|e2] a2] eqn:H2; cbn [fst snd].
      * destruct (String.eqb_spec detected default) as [->|Hne]; cbn [negb].
        -- exists [Some default]. cbn [fst snd].
           split; [reflexivity|]. split; [simpl; lia|]. split; [intros [=]|].
           intros text language [= <- <-]. split; [reflexivity|]. split; [intros [=]|]. eauto.
        -- rewrite recognize_run. cbn [fst snd].
           destruct (Stt.recognize_google audio (Some detected) a2) as [[text2|e3] a3] eqn:H3;
             cbn [fst snd].
           ++ exists [Some default; Some detected]. rewrite <- app_assoc.
              split; [reflexivity|]. split; [simpl; lia|]. split; [intros [=]|].
              intros text language [= <- <-]. split; [reflexivity|]. split; [intros [=]|].
              eauto.
           ++ rewrite <- app_assoc. cbn [app].
              destruct (Henglish a3 [Some default; Some detected]) as (r & a' & -> & Hr).
              exists [Some default; Some detected; Some "en"].
              destruct r as [text3|e4]; cbn [fst snd];
                (split; [reflexivity|]; split; [simpl; lia|]; split; [intros [=]|]);
                intros text language [= <- <-].
              split; [reflexivity|]. split; [intros [=]|]. now apply Hr.
      * destruct (Henglish a2 [Some default]) as (r & a' & -> & Hr).
        exists [Some default; Some "en"].
        destruct r as [text3|e4]; cbn [fst snd];
          (split; [reflexivity|]; split; [simpl; lia|]; split; [intros [=]|]);
          intros text language [= <- <-].
        split; [reflexivity|]. split; [intros [=]|]. now apply Hr.
    + destruct (Henglish a1 [Some default]) as (r & a' & -> & Hr).
      exists [Some default; Some "en"].
      destruct r as [text3|e4]; cbn [fst snd];
        (split; [reflexivity|]; split; [simpl; lia|]; split; [intros [=]|]);
        intros text language [= <- <-].
      split; [reflexivity|]. split; [intros [=]|]. now apply Hr.
  - rewrite recognize_run.
    destruct (Stt.recognize_google audio (Some default) w.1) as [[text1|e1] a1] eqn:H1;
      cbn [fst snd]; exists [Some default];
      (split; [reflexivity|]; split; [simpl; lia|]; split; [simpl; lia|]);
      intros text language [= <- <-].
    split; [reflexivity|]. split; [reflexivity|]. eauto.
Qed.

End ListeningFacts.

(** X19.  Once the microphone is open, [listen_and_transcribe] never
    raises: every failure gives [(None, None)].  It makes at most three
    recognition requests (at most one without language auto-detection), and
    a text it returns is the answer to the last of them, made in the
    language it returns; without auto-detection that is the default
    language. *)
Theorem listen_and_transcribe_never_raises `{Sp : Stt.Speech} (device_index : option Z)
    (default_language : string) (auto_detect_language : bool) (w : Stt.Ear) (a : Stt.Air) :
  Stt.open_microphone device_index (fst w) = (Stt.Got tt, a) →
  ∃ r w' requests,
    Stt.listen_and_transcribe device_index default_language auto_detect_language w
    = (Stt.Got r, w') ∧
    snd w' = (snd w ++ requests)%list ∧
    (length requests ≤ 3)%nat ∧
    (auto_detect_language = false → (length requests ≤ 1)%nat) ∧
    ∀ text language,
      r = Some (text, language) →
      last requests = Some (Some language) ∧
      (auto_detect_language = false → language = default_language) ∧
      ∃ audio a0 a1, Stt.recognize_google audio (Some language) a0 = (Stt.Got text, a1).
Proof.
  intros Hopen. unfold Stt.listen_and_transcribe. rewrite Hopen.
  destruct (Stt.record a) as [[audio|e] a1].
  - destruct (transcribe_requests default_language auto_detect_language audio (a1, snd w))
      as (requests & Hlog & H3 & H1 & Hret).
    destruct (Stt.transcribe default_language auto_detect_language audio (a1, w.2))
      as [[[text language]|e] w'] eqn:Ht; cbn [fst snd] in *.
    + exists (Some (text, language)), w', requests.
      split; [reflexivity|]. split; [exact Hlog|]. split; [exact H3|]. split; [exact H1|].
      intros text' language' [= <- <-].
      destruct (Hret text language eq_refl) as (Hlast & Hdef & a0 & a2 & Hrec).
      split; [exact Hlast|]. split; [exact Hdef|]. eauto.
    + exists None, w', requests.
      split; [reflexivity|]. split; [exact Hlog|]. split; [exact H3|]. split; [exact H1|].
      intros text language [=].
  - exists None, (a1, snd w), []. cbn [snd]. rewrite app_nil_r.
    split; [reflexivity|]. split; [reflexivity|]. split; [simpl; lia|]. split; [simpl; lia|].
    intros text language [=].
Qed.

Lemma listen_and_transcribe_never_raises_witness :
  Stt.listen_and_transcribe (Sp := DemoSpeech.indonesian) None "id" true (0%nat, [])
  = (Stt.Got (Some ("selamat pagi", "id")), (4%nat, [Some "id"])).
Proof.
  destruct (listen_and_transcribe_never_raises (Sp := DemoSpeech.indonesian) None "id" true
              (0%nat, []) 1%nat eq_refl) as (r & w' & requests & Hrun & _).
  rewrite Hrun. vm_compute in Hrun. injection Hrun as <- <-. reflexivity.
Defined.

(** X20.  [listen_for_wake_word], once something was recorded: it answers
    [True] exactly when the recognized text contains the wake word in some
    mix of cases, the test of [utils.extract_wake_word]; speech that is not
    understood, a failed request and a timeout give [False]; any other
    error of the recognition is raised to the caller. *)
Theorem wake_word_outcome `{Sp : Stt.Speech} (device_index : option Z) (wake_word : string)
    (w : Stt.Ear) (a a1 a2 : Stt.Air) (audio : Stt.Audio) (heard : Stt.sr_result string) :
  Stt.open_microphone device_index (fst w) = (Stt.Got tt, a) →
  Stt.record a = (Stt.Got audio, a1) →
  Stt.recognize_google audio None a1 = (heard, a2) →
  fst (Stt.listen_for_wake_word device_index wake_word w) =
  match heard with
  | Stt.Got text => Stt.Got (Utils.extract_wake_word text wake_word)
  | Stt.Failed (Stt.OtherError message) => Stt.Failed (Stt.OtherError message)
  | Stt.Failed _ => Stt.Got false
  end.
Proof.
  intros Hopen Hrec Hheard. unfold Stt.listen_for_wake_word.
  rewrite Hopen, Hrec, recognize_run. cbn [fst snd]. rewrite Hheard. cbn [fst snd].
  destruct heard as [text|[| |m|m]]; try reflexivity.
  unfold Utils.extract_wake_word. rewrite PyStrFacts.lower_idem.
  now destruct (PyStr.contains _ _).
Qed.

Lemma wake_word_outcome_witness :
  fst (Stt.listen_for_wake_word (Sp := DemoSpeech.wake) None "jarvis" (0%nat, []))
  = Stt.Got true.
Proof.
  apply (wake_word_outcome (Sp := DemoSpeech.wake) None "jarvis" (0%nat, []) 1%nat 2%nat 3%nat tt
           (Stt.Got "Hey JARVIS")); reflexivity.
Defined.

(** * Speaking *)

Section SpeakingFacts.

Context `{En : Tts.Engines}.

Lemma keeps_call {A} (f : Tts.Room → outcome A * Tts.Room) : Tts.keeps (Tts.call f).
Proof.
  intros t o t'. unfold Tts.call. destruct (f (Tts.room t)) as [r w].
  intros [= <- <-]. auto.
Qed.

Lemma keeps_tret {A} (a : A) : Tts.keeps (Tts.tret a).
Proof. intros t o t' [= <- <-]. auto. Qed.

Lemma keeps_tbind {A B} (m : Tts.T A) (k : A → Tts.T B) :
  Tts.keeps m → (∀ a, Tts.keeps (k a)) → Tts.keeps (Tts.tbind m k).
Proof.
  intros Hm Hk t o t'. unfold Tts.tbind. destruct (m t) as [[a|e] t1] eqn:E.
  - intros H. destruct (Hm _ _ _ E) as (?&?&?&?), (Hk a _ _ _ H) as (?&?&?&?).
    repeat split; congruence.
  - intros [= <- <-]. now apply (Hm _ _ _ E).
Qed.

Lemma keeps_swallow (m : Tts.T unit) : Tts.keeps m → Tts.keeps (Tts.swallow m).
Proof.
  intros Hm t o t'. unfold Tts.swallow. destruct (m t) as [[a|e] t1] eqn:E;
    intros [= <- <-]; now apply (Hm _ _ _ E).
Qed.

Lemma keeps_set_default_voice : Tts.keeps Tts._set_default_voice.
Proof.
  apply keeps_swallow, keeps_tbind; [apply keeps_call|]. intros voices.
  destruct (Tts.pick_voice _ _); [apply keeps_call | apply keeps_tret].
Qed.

(** When [_init_pyttsx3] returns, the engine is there and nothing else moved. *)
Lemma init_pyttsx3_returns cfg t t' :
  Tts._init_pyttsx3 cfg t = (Returned tt, t') →
  Tts.engine_type t' = Tts.engine_type t ∧ Tts.engine t' = Some tt ∧
  Tts.riva_client t' = Tts.riva_client t ∧ Tts.said t' = Tts.said t.
Proof.
  unfold Tts._init_pyttsx3. unfold Tts.tbind at 1.
  destruct (Tts.call Tts.pyttsx3_init t) as [[[]|e] t1] eqn:E1; [|discriminate].
  apply keeps_call in E1 as (He1 & _ & Hr1 & Hs1).
  unfold Tts.tbind at 1, Tts.set_engine at 1.
  set (t2 := {| Tts.engine_type := Tts.engine_type t1; Tts.engine := Some tt;
                Tts.riva_client := Tts.riva_client t1; Tts.room := Tts.room t1;
                Tts.said := Tts.said t1 |}).
  intros H.
  assert (Hrest : Tts.keeps
    (Tts.tbind (Tts.call (Tts.set_property "rate" (Tts.rate cfg))) (fun _ =>
     Tts.tbind (Tts.call (Tts.set_property "volume" (Tts.volume cfg))) (fun _ =>
     match Tts.voice_id cfg with
     | Some id => if PyStr.truthy id then Tts.call (Tts.set_property "voice" id)
                  else Tts._set_default_voice
     | None => Tts._set_default_voice
     end)))).
  { apply keeps_tbind; [apply keeps_call|]. intros _.
    apply keeps_tbind; [apply keeps_call|]. intros _.
    destruct (Tts.voice_id cfg) as [id|]; [|apply keeps_set_default_voice].
    destruct (PyStr.truthy id); [apply keeps_call | apply keeps_set_default_voice]. }
  destruct (Hrest _ _ _ H) as (He & Hen & Hr & Hs). subst t2. simpl in *.
  repeat split; congruence.
Qed.

(** The object [__init__] leaves has exactly one way to speak. *)
Lemma init_returns cfg w t :
  Tts.init cfg w = (Returned tt, t) →
  Tts.said t = [] ∧
  ((Tts.engine_type t = "pyttsx3" ∧ Tts.engine t = Some tt ∧ Tts.riva_client t = None) ∨
   (Tts.engine_type t = "riva" ∧ Tts.engine t = None ∧ Tts.riva_client t = Some tt ∧
    Tts.engine_name cfg = "riva" ∧ Tts.riva_enabled cfg = true)).
Proof.
  unfold Tts.init.
  set (t0 := {| Tts.engine_type := Tts.engine_name cfg; Tts.engine := None;
                Tts.riva_client := None; Tts.room := w; Tts.said := [] |}).
  assert (Hfallback : ∀ t1 t',
             Tts.engine t1 = None → Tts.riva_client t1 = None → Tts.said t1 = [] →
             Tts.tbind (Tts.set_engine_type "pyttsx3") (fun _ => Tts._init_pyttsx3 cfg) t1
             = (Returned tt, t') →
             Tts.said t' = [] ∧ Tts.engine_type t' = "pyttsx3" ∧ Tts.engine t' = Some tt ∧
             Tts.riva_client t' = None).
  { intros t1 t' He Hr Hs H. unfold Tts.tbind, Tts.set_engine_type in H.
    apply init_pyttsx3_returns in H as (H1 & H2 & H3 & H4). simpl in *.
    repeat split; congruence. }
  destruct (String.eqb_spec (Tts.engine_name cfg) "pyttsx3") as [Hname|Hname].
  - intros H. apply init_pyttsx3_returns in H as (H1 & H2 & H3 & H4). simpl in *.
    split; [exact H4|]. left. repeat split; congruence.
  - destruct (String.eqb_spec (Tts.engine_name cfg) "riva") as [Hriva|Hriva]; cbn [andb].
    + destruct (Tts.riva_enabled cfg) eqn:Hen.
      * unfold Tts._init_riva.
        destruct Tts.import_grpc;
          [intros H; apply Hfallback in H as (?&?&?&?); [split; [|left]; auto|..]; reflexivity|].
        destruct Tts.import_riva;
          [intros H; apply Hfallback in H as (?&?&?&?); [split; [|left]; auto|..]; reflexivity|].
        destruct (Tts.call _ t0) as [[[]|e] t1] eqn:E; apply keeps_call in E as (E1&E2&E3&E4).
        -- unfold Tts.set_riva_client. intros [= <-]. simpl.
           split; [exact E4|]. right. repeat split; try congruence.
           ++ rewrite E1. exact Hriva.
           ++ rewrite E2. reflexivity.
        -- intros H. apply Hfallback in H as (?&?&?&?);
             [split; [|left]; auto | now rewrite E2 | now rewrite E3 | now rewrite E4].
      * intros H. apply Hfallback in H as (?&?&?&?); [split; [|left]; auto|..]; reflexivity.
    + intros H. apply Hfallback in H as (?&?&?&?); [split; [|left]; auto|..]; reflexivity.
Qed.

End SpeakingFacts.

(** X21.  When [TextToSpeech.__init__] returns, the object is settled on
    one engine: either [engine_type] is "pyttsx3" and the pyttsx3 engine is
    there, or it is "riva" and only the Riva client is there.  Riva is kept
    only if the configuration names it and enables it (and the client could
    be created); every other case ends on pyttsx3. *)
Theorem tts_init_settles_on_one_engine `{En : Tts.Engines} (cfg : Tts.SpeechConfig)
    (w : Tts.Room) (t : Tts.TextToSpeech) :
  Tts.init cfg w = (Returned tt, t) →
  Tts.settled t ∧
  (Tts.engine_type t = "riva" → Tts.engine_name cfg = "riva" ∧ Tts.riva_enabled cfg = true).
Proof.
  intros Hinit. apply init_returns in Hinit as (_ & [(Ht & He & Hr) | (Ht & He & Hr & Hn & Hen)]).
  - split; [now left|]. rewrite Ht. discriminate.
  - split; [now right | auto].
Qed.

Lemma tts_init_settles_on_one_engine_witness :
  let t := snd (Tts.init (En := DemoSpeech.engines false true) DemoSpeech.riva_config 0%nat) in
  Tts.settled t ∧ Tts.engine_type t = "pyttsx3".
Proof.
  intros t. split; [|reflexivity].
  apply (tts_init_settles_on_one_engine (En := DemoSpeech.engines false true)
           DemoSpeech.riva_config 0%nat t).
  reflexivity.
Defined.

(** [speak] on a settled object returns and keeps it settled. *)
Lemma speak_settled `{En : Tts.Engines} (t : Tts.TextToSpeech) (text : string) :
  Tts.settled t → ∃ t', Tts.speak text t = (Returned tt, t') ∧ Tts.settled t'.
Proof.
  intros Hset. unfold Tts.speak.
  destruct (negb (PyStr.truthy text)); [exists t; now split|].
  destruct Hset as [(Ht & He & Hr) | (Ht & He & Hr)]; rewrite Ht.
  - change ("pyttsx3" =? "pyttsx3")%string with true. cbn iota.
    unfold Tts._speak_pyttsx3, Tts.swallow, Tts.tbind, Tts.the_engine. rewrite He.
    unfold Tts.call, Tts.log_said.
    destruct (Tts.pyttsx3_say text (Tts.room t)) as [[[]|e] w];
      eexists; (split; [reflexivity|]); left; simpl; auto.
  - change ("riva" =? "pyttsx3")%string with false.
    change ("riva" =? "riva")%string with true. cbn iota.
    unfold Tts._speak_riva, Tts.tbind, Tts.the_riva_client. rewrite Hr.
    unfold Tts.call, Tts.log_said.
    destruct (Tts.riva_say text (Tts.room t)) as [[[]|e] w]; cbn [Tts.engine]; rewrite ?He;
      eexists; (split; [reflexivity|]); right; simpl; auto.
Qed.

(** X22.  On a settled object, and so on any object [__init__] returned,
    [speak] never raises and the object stays settled.  An empty text says
    nothing; otherwise at most one thing is said, the text, by the engine
    [engine_type] names.  In particular, when Riva is the engine and it
    fails, nothing is said: the fall-back to pyttsx3 in [_speak_riva] needs
    an attribute [engine] that such an object does not have. *)
Theorem speak_uses_only_the_settled_engine `{En : Tts.Engines} (t : Tts.TextToSpeech)
    (text : string) :
  Tts.settled t →
  ∃ t', Tts.speak text t = (Returned tt, t') ∧
        Tts.settled t' ∧
        Tts.engine_type t' = Tts.engine_type t ∧
        (Tts.said t' = Tts.said t ∨
         (text ≠ "" ∧ Tts.said t' = (Tts.said t ++ [(Tts.engine_type t, text)])%list)) ∧
        (Tts.engine_type t = "riva" →
         (∃ e w, Tts.riva_say text (Tts.room t) = (Raised e, w)) →
         Tts.said t' = Tts.said t).
Proof.
  intros Hset. unfold Tts.speak. destruct text as [|c text].
  - exists t. cbn [PyStr.truthy negb]. unfold Tts.tret. repeat split; auto.
  - cbn [PyStr.truthy negb]. set (txt := String c text).
    destruct Hset as [(Ht & He & Hr) | (Ht & He & Hr)]; rewrite Ht; cbn [String.eqb].
    + change ("pyttsx3" =? "pyttsx3")%string with true. cbn iota.
      unfold Tts._speak_pyttsx3, Tts.swallow, Tts.tbind, Tts.the_engine. rewrite He.
      unfold Tts.call, Tts.log_said.
      destruct (Tts.pyttsx3_say txt (Tts.room t)) as [[[]|e] w]; cbn [Tts.room].
      * eexists. split; [reflexivity|]. simpl. split; [left; auto|]. split; [exact Ht|].
        split; [right; split; [discriminate | reflexivity]|]. discriminate.
      * eexists. split; [reflexivity|]. simpl. split; [left; auto|]. split; [exact Ht|].
        split; [now left|]. discriminate.
    + change ("riva" =? "pyttsx3")%string with false.
      change ("riva" =? "riva")%string with true. cbn iota.
      unfold Tts._speak_riva, Tts.tbind, Tts.the_riva_client. rewrite Hr.
      unfold Tts.call, Tts.log_said.
      destruct (Tts.riva_say txt (Tts.room t)) as [[[]|e] w] eqn:Hsay; cbn [Tts.room Tts.engine].
      * eexists. split; [reflexivity|]. simpl. split; [right; auto|]. split; [exact Ht|].
        split; [right; split; [discriminate | reflexivity]|].
        intros _ (e & w' & [=]).
      * rewrite He. eexists. split; [reflexivity|]. simpl. split; [right; auto|].
        split; [exact Ht|]. split; [now left|]. auto.
Qed.

Lemma speak_uses_only_the_settled_engine_witness :
  let t := snd (Tts.init (En := DemoSpeech.engines true false) DemoSpeech.riva_config 0%nat) in
  Tts.engine_type t = "riva" ∧
  ∃ t', Tts.speak "Goodbye!" t = (Returned tt, t') ∧ Tts.said t' = [].
Proof.
  intros t. split; [reflexivity|].
  destruct (speak_uses_only_the_settled_engine (En := DemoSpeech.engines true false) t "Goodbye!")
    as (t' & Hrun & _ & _ & _ & Hnone).
  - right. repeat split.
  - exists t'. split; [exact Hrun|]. apply Hnone; [reflexivity|].
    exists "RpcError", 2%nat. reflexivity.
Defined.

(** X23.  The default voice.  With no voice installed none is chosen;
    otherwise the chosen voice is one of those installed.  On Windows it is
    the first voice whose name contains "female" in any case, and on any
    system other than Windows and macOS it is the first voice. *)
Theorem default_voice_choice (system : string) (voices : list (string * string)) :
  (voices = [] → Tts.pick_voice system voices = None) ∧
  (voices ≠ [] → ∃ id, Tts.pick_voice system voices = Some id ∧ In id (map snd voices)) ∧
  (system = "Windows" →
   ∀ before name id after,
     voices = (before ++ (name, id) :: after)%list →
     PyStr.contains "female" (PyStr.lower name) = true →
     (∀ v, In v before → PyStr.contains "female" (PyStr.lower (fst v)) = false) →
     Tts.pick_voice system voices = Some id) ∧
  (system ≠ "Windows" → system ≠ "Darwin" →
   Tts.pick_voice system voices = match voices with [] => None | (_, id) :: _ => Some id end).
Proof.
  assert (Hin : ∀ word id, Tts.first_named word voices = Some id → In id (map snd voices)).
  { intros word id. induction voices as [|[n i] vs IH]; simpl; [discriminate|].
    destruct (PyStr.contains word (PyStr.lower n)); [intros [= <-]; now left|].
    intros H. right. now apply IH. }
  split; [intros ->; unfold Tts.pick_voice;
          destruct (String.eqb system "Windows"), (String.eqb system "Darwin"); reflexivity|].
  split; [|split].
  - intros Hne. destruct voices as [|[n i] vs]; [contradiction|].
    assert (Hfirst : In i (map snd ((n, i) :: vs))) by now left.
    unfold Tts.pick_voice.
    destruct (String.eqb system "Windows").
    + destruct (Tts.first_named "female" ((n, i) :: vs)) as [id|] eqn:F; eauto.
    + destruct (String.eqb system "Darwin"); [|eauto].
      destruct (Tts.first_named "samantha" ((n, i) :: vs)) as [id|] eqn:F; eauto.
  - intros -> before name id after -> Hname Hbefore. unfold Tts.pick_voice.
    change ("Windows" =? "Windows")%string with true. cbn iota.
    assert (Hfound : Tts.first_named "female" (before ++ (name, id) :: after) = Some id).
    { clear Hin. induction before as [|[n i] before IH]; simpl.
      - now rewrite Hname.
      - pose proof (Hbefore (n, i) (or_introl eq_refl)) as Hno. cbn [fst] in Hno.
        rewrite Hno. apply IH. intros v Hv. apply Hbefore. now right. }
    now rewrite Hfound.
  - intros Hw Hd. unfold Tts.pick_voice.
    apply String.eqb_neq in Hw, Hd. now rewrite Hw, Hd.
Qed.

Lemma default_voice_choice_witness :
  Tts.pick_voice "Windows" [("Alex", "v0"); ("Zira Female", "v1"); ("Eva female", "v2")]
  = Some "v1".
Proof.
  destruct (default_voice_choice "Windows"
              [("Alex", "v0"); ("Zira Female", "v1"); ("Eva female", "v2")])
    as (_ & _ & Hwindows & _).
  apply (Hwindows eq_refl [("Alex", "v0")] "Zira Female" "v1" [("Eva female", "v2")]).
  - reflexivity.
  - reflexivity.
  - intros v [<-|[]]. reflexivity.
Defined.

(** * A session at the keyboard *)

Section SessionFacts.

Context `{Sv : Services} `{En : Tts.Engines}.
Variable cfg : Config.

(** [Chatbot.speak] with a settled voice, or with none: the line is printed. *)
Lemma speak_prints text (c : Console) :
  match tts c with Some t => Tts.settled t | None => True end →
  ∃ c', speak text c = (Returned tt, c') ∧
        chatbot c' = chatbot c ∧
        printed c' = (printed c ++ [("Bot: " ++ text)%string])%list ∧
        match tts c' with Some t => Tts.settled t | None => True end.
Proof.
  intros Hset. unfold speak. destruct (tts c) as [t|] eqn:E.
  - destruct (speak_settled t text Hset) as (t' & -> & Hset').
    eexists. split; [reflexivity|]. simpl. auto.
  - eexists. split; [reflexivity|]. simpl. rewrite E. auto.
Qed.

End SessionFacts.

(** X24.  How a typed session ends, at any point of it.  A line that in
    lowercase is an exit phrase (the empty line too, when configured) gets
    the farewell and ends the loop without reaching [process_input]: the
    chatbot is untouched and what follows is left unread.  A line on which
    the model raises ends the loop as well, with that error: nothing is
    printed for the turn, the rest of the input is left unread, and the
    utterance stays in the history. *)
Theorem session_endings `{Sv : Services} `{En : Tts.Engines} (cfg : Config)
    (c : Console) (user_input : string) (rest : list stdin_event) :
  match tts c with Some t => Tts.settled t | None => True end →
  (In (PyStr.lower user_input) (exit_commands cfg) →
   ∃ c', conversation_loop cfg (Typed user_input :: rest) c = (Broke, c', rest) ∧
         chatbot c' = chatbot c ∧
         printed c' = (printed c ++ ["Bot: Goodbye!"])%list) ∧
  (¬ In (PyStr.lower user_input) (exit_commands cfg) →
   ∀ r s1 d x s2 ids e w,
     handle_command cfg user_input (chatbot c) = (Returned r, s1) →
     falsy r = true →
     to_pivot cfg user_input None s1 = (Returned (d, x), s2) →
     tokenizer_encode (x ++ eos_token) = Returned ids →
     model_generate (bot_input (chat_history_ids (chatbot c)) ids) (world s2) = (Raised e, w) →
     ∃ c', conversation_loop cfg (Typed user_input :: rest) c = (Crashed e, c', rest) ∧
           printed c' = printed c ∧
           conversation_history (chatbot c')
           = trim_history cfg (conversation_history (chatbot c) ++ [x])).
Proof.
  intros Hset. split.
  - intros Hexit. apply PyStrFacts.mem_spec in Hexit. cbn [conversation_loop]. rewrite Hexit.
    destruct (speak_prints "Goodbye!" c Hset) as (c' & -> & Hbot & Hprinted & _).
    exists c'. auto.
  - intros Hexit r s1 d x s2 ids e w Hc Hf Hp He Hg. cbn [conversation_loop].
    destruct (PyList.mem _ _) eqn:E; [apply PyStrFacts.mem_spec in E; contradiction|].
    pose proof (handle_command_frame cfg _ _ _ _ Hc) as (_ & Hh1 & Hi1 & _).
    destruct (to_pivot_run cfg user_input None s1) as (d' & x' & s2' & Hp' & Hmem).
    rewrite Hp in Hp'. injection Hp' as <- <- <-. destruct Hmem as (_ & Hh2 & Hi2).
    rewrite (process_input_converse cfg _ _ _ _ _ Hc Hf), (converse_run cfg _ _ _ _ _ _ Hp).
    unfold bind.
    rewrite (generate_response_model_raises x (remembered cfg x s2) ids e w He).
    + eexists. split; [reflexivity|]. simpl. split; [reflexivity|]. now rewrite Hh2, Hh1.
    + simpl. rewrite Hi2, Hi1. exact Hg.
Qed.

Lemma session_endings_witness :
  let cfg := Demo.config 5 [""; "bye"] Demo.commands in
  let c := {| chatbot := Demo.fresh (Sv := Demo.english) cfg 0%nat;
              tts := @None (Tts.TextToSpeech (En := DemoSpeech.engines true true));
              printed := [] |} in
  ∃ c', conversation_loop cfg [Typed ""; Typed "hello"] c = (Broke, c', [Typed "hello"]) ∧
        printed c' = ["Bot: Goodbye!"].
Proof.
  intros cfg c.
  destruct (session_endings (Sv := Demo.english) (En := DemoSpeech.engines true true)
              cfg c "" [Typed "hello"] I) as [Hexit _].
  destruct Hexit as (c' & Hrun & _ & Hprinted); [now left|].
  exists c'. split; [exact Hrun | exact Hprinted].
Defined.

(** X25.  The language prompt of the multilingual example, on a typed line
    of ASCII characters, starts the chatbot with a code of the language
    table or asks again: a blank line gives "en"; a language name, in any
    case and with blanks around it, gives the code the table has for it; a
    code of the table that is not a language name gives itself; anything
    else is turned down. *)
Theorem chosen_language_is_a_code (typed : string) :
  let choice := PyStr.lower (PyText.strip typed) in
  PyAscii.is_ascii typed = true →
  (choice = "" → Example.choose_language typed = Some "en") ∧
  (∀ code, choice ≠ "" → Languages.dict_get choice Languages.LANGUAGE_MAPPING = Some code →
           Example.choose_language typed = Some code) ∧
  (choice ≠ "" → ¬ In choice (map fst Languages.LANGUAGE_MAPPING) →
   In choice (map snd Languages.LANGUAGE_MAPPING) →
   Example.choose_language typed = Some choice) ∧
  (∀ code, Example.choose_language typed = Some code →
           In code (map snd Languages.LANGUAGE_MAPPING)) ∧
  (Example.choose_language typed = None ↔
   choice ≠ "" ∧
   ¬ In choice (map fst Languages.LANGUAGE_MAPPING) ∧
   ¬ In choice (map snd Languages.LANGUAGE_MAPPING)).
Proof.
  intros choice _. unfold Example.choose_language. fold choice.
  destruct (PyStr.truthy choice) eqn:Ht; cbn [negb].
  - assert (Hne : choice ≠ "") by (intros Heq; rewrite Heq in Ht; discriminate).
    split; [intros Heq; contradiction|].
    destruct (Languages.dict_get choice Languages.LANGUAGE_MAPPING) as [code|] eqn:Hget.
    + apply LanguagesFacts.dict_get_In in Hget.
      assert (Hname : In choice (map fst Languages.LANGUAGE_MAPPING))
        by (apply in_map_iff; now exists (choice, code)).
      split; [now intros code' _ [= <-]|].
      split; [intros _ Hno; contradiction|]. split.
      * intros code' [= <-]. apply in_map_iff. now exists (choice, code).
      * split; [discriminate|]. intros (_ & Hno & _). contradiction.
    + apply LanguagesFacts.dict_get_None in Hget.
      split; [intros code _; discriminate|].
      destruct (PyList.mem choice (map snd Languages.LANGUAGE_MAPPING)) eqn:Hmem.
      * apply PyStrFacts.mem_spec in Hmem. split; [reflexivity|].
        split; [now intros code [= <-]|].
        split; [discriminate|]. intros (_ & _ & Hcode). contradiction.
      * split; [intros _ _ Hin; apply PyStrFacts.mem_spec in Hin; congruence|].
        split; [discriminate|]. split; [|reflexivity]. intros _.
        split; [exact Hne|]. split; [exact Hget|].
        intros Hin. apply PyStrFacts.mem_spec in Hin. congruence.
  - apply PyStrFacts.truthy_false in Ht. split; [reflexivity|].
    split; [intros code Hne; contradiction|].
    split; [intros Hne; contradiction|]. split.
    + intros code [= <-]. vm_compute. tauto.
    + split; [discriminate|]. intros (Hne & _). contradiction.
Qed.

Lemma chosen_language_is_a_code_witness :
  Example.choose_language "   " = Some "en" ∧
  Example.choose_language "  Indonesian " = Some "id" ∧
  In "id" (map snd Languages.LANGUAGE_MAPPING).
Proof.
  split; [|split].
  - apply (proj1 (chosen_language_is_a_code "   " eq_refl)). reflexivity.
  - destruct (chosen_language_is_a_code "  Indonesian " eq_refl) as (_ & Hname & _).
    apply Hname; [discriminate | reflexivity].
  - destruct (chosen_language_is_a_code "  Indonesian " eq_refl) as (_ & _ & _ & Hcode & _).
    apply (Hcode "id"). reflexivity.
Defined.

(** * Case in the exit phrases and in the trigger phrases *)

Section CaseFacts.

Context `{Sv : Services}.
Variable cfg : Config.





End CaseFacts.




(** * A command answered with the empty string *)

Section FallThroughFacts.

Context `{Sv : Services}.
Variable cfg : Config.



End FallThroughFacts.


